(** * The browser page session controller (scanner-global-library, page.ts)

    A shallow embedding of the [Page] class: its five mutable fields, the
    collaborators injected through its constructor, and its methods, written
    in a small state / exception / event monad.  Strings stand for the UTF-8
    bytes of the JavaScript strings, [number] is [Z], an optional or
    [undefined] value is an [option]. *)

From Stdlib Require Import String Ascii List ZArith Bool Lia.
Import ListNotations.

Local Open Scope string_scope.
Local Open Scope list_scope.

(** ** JavaScript values that travel as errors *)

(** browser-error.ts *)
Record BrowserError := mkBrowserError {
  errorType : string;
  message : string;
  statusCode : option Z
}.

(** What can be thrown, logged or stored in an [error] field: a string, an
    [Error] object (name and message) or a [BrowserError]. *)
Inductive JsValue :=
| JsStr (s : string)
| JsErrorObj (name msg : string)
| JsBrowserErr (e : BrowserError).

Definition notReadyError : JsValue :=
  JsErrorObj "Error" "Page is not ready. Call create() and navigateToUrl() before scan.".

(** Reading a property of [undefined]. *)
Definition typeError (what : string) : JsValue :=
  JsErrorObj "TypeError" ("Cannot read properties of undefined (reading '" ++ what ++ "')")%string.

(** ** Puppeteer handles *)

Record PageHandle := mkPage {
  page_url : string;
  page_title : string;
  page_isClosed : bool
}.

Record Browser := mkBrowser { browser_version : string }.

(** [request().redirectChain()] is kept on the response. *)
Record HTTPResponse := mkResponse {
  status : Z;
  ok : bool;
  redirectChain : list string
}.

(** ** Engine outputs *)

Record AxeResults := mkAxeResults {
  axe_url : string;
  axe_violations : list string
}.

Record ConsentResult := mkConsent {
  cookiesUsedForConsent : option string;
  consent_error : option JsValue
}.

Record PrivacyResults := mkPrivacyResults {
  navigationalUri : string;
  cookieCollectionConsentResults : list ConsentResult
}.

(** [{ ...privacyResult, httpStatusCode, seedUri }] *)
Record PrivacyPageScanReport := mkReport {
  spread : PrivacyResults;
  httpStatusCode : Z;
  seedUri : option string
}.

Record ReloadPageResponse := mkReload {
  success : bool;
  reload_error : option BrowserError
}.

(** ** Scan results: every field is optional, as in the TypeScript types *)

Module AxeScanResults.
Record t := mk {
  results : option AxeResults;
  pageTitle : option string;
  browserSpec : option string;
  pageResponseCode : option Z;
  userAgent : option string;
  browserResolution : option string;
  scannedUrl : option string;
  error : option JsValue
}.
End AxeScanResults.

Module PrivacyScanResult.
Record t := mk {
  results : option PrivacyPageScanReport;
  pageResponseCode : option Z;
  scannedUrl : option string;
  error : option JsValue
}.
End PrivacyScanResult.

(** The return type of [runIfNavigationSucceeded<T>]:
    [T | { error, pageResponseCode }]. *)
Inductive Gated (T : Type) :=
| ActionResult (t : T)
| NavigationFailed (error : BrowserError) (pageResponseCode : option Z).
Arguments ActionResult {T} t.
Arguments NavigationFailed {T} error pageResponseCode.

(** ** Collaborators *)

(** What one call to [pageNavigator.navigate] does: the response it returns
    (possibly [undefined]), the browser errors it hands to the error
    callback, in order, and where it leaves the page. *)
Record NavOutcome := mkNav {
  nav_response : option HTTPResponse;
  nav_errors : list BrowserError;
  nav_url : string;
  nav_title : string
}.

Record PageConfigurator := mkConfigurator {
  getUserAgent : string;
  getBrowserResolution : string
}.

(** The navigator answers from the number of navigations made so far, the
    URL and the page it is given. *)
Record PageNavigator := mkNavigator {
  navigate : nat -> string -> option PageHandle -> NavOutcome;
  pageConfigurator : PageConfigurator
}.

Inductive AxeOutcome :=
| AxeReturned (r : AxeResults)
| AxeThrew (e : JsValue).

Record AxePuppeteer := mkAxePuppeteer { analyze : AxeOutcome }.

Record AxePuppeteerFactory := mkAxeFactory {
  createAxePuppeteer : option PageHandle -> option string -> AxePuppeteer
}.

(** The privacy engine is a resumption: it returns, throws, or calls the
    reload callback on the page it was given and goes on from the answer. *)
Inductive PrivacyEngine :=
| PReturn (r : PrivacyResults)
| PThrow (e : JsValue)
| PReload (k : ReloadPageResponse -> PrivacyEngine).

Record PrivacyPageScanner := mkPrivacyScanner {
  scanPageForPrivacy : option PageHandle -> PrivacyEngine
}.

Inductive Launch :=
| Launched (b : Browser)
| LaunchFailed (e : JsValue).

Record WebDriver := mkWebDriver {
  launch : option string -> Launch;
  connect : string -> Launch
}.

Inductive GlobalLogger := globalLogger.

(** The constructor's parameters. *)
Record Deps := mkDeps {
  webDriver : option WebDriver;
  axePuppeteerFactory : AxePuppeteerFactory;
  pageNavigator : PageNavigator;
  privacyPageScanner : PrivacyPageScanner;
  logger : option GlobalLogger
}.

Record BrowserStartOptions := mkOptions {
  browserExecutablePath : option string;
  browserWSEndpoint : option string
}.

(** ** State *)

(** The fields of [Page]. *)
Record Session := mkSession {
  requestUrl : option string;
  page : option PageHandle;
  browser : option Browser;
  lastNavigationResponse : option HTTPResponse;
  lastBrowserError : option BrowserError
}.

(** The page object together with what lives outside it: the browser the
    driver holds and the number of navigations made. *)
Record World := mkWorld {
  session : Session;
  driverBrowser : option Browser;
  navCount : nat
}.

Definition newSession : Session := mkSession None None None None None.
Definition newWorld : World := mkWorld newSession None 0.

Definition set_requestUrl (v : option string) (s : Session) : Session :=
  mkSession v (page s) (browser s) (lastNavigationResponse s) (lastBrowserError s).
Definition set_page (v : option PageHandle) (s : Session) : Session :=
  mkSession (requestUrl s) v (browser s) (lastNavigationResponse s) (lastBrowserError s).
Definition set_browser (v : option Browser) (s : Session) : Session :=
  mkSession (requestUrl s) (page s) v (lastNavigationResponse s) (lastBrowserError s).
Definition set_lastNavigationResponse (v : option HTTPResponse) (s : Session) : Session :=
  mkSession (requestUrl s) (page s) (browser s) v (lastBrowserError s).
Definition set_lastBrowserError (v : option BrowserError) (s : Session) : Session :=
  mkSession (requestUrl s) (page s) (browser s) (lastNavigationResponse s) v.

(** ** Observable events *)

Inductive LogLevel := LevelError | LevelWarn.

Inductive LogValue :=
| LogText (s : string)
| LogJson (vs : list (option JsValue)).

Inductive Event :=
| EvLog (level : LogLevel) (msg : string) (props : list (string * LogValue))
| EvNavigate (url : string) (o : NavOutcome)
| EvAxeAnalyze (contentSourcePath : option string)
| EvPrivacyScan
| EvBrowserLaunched (b : Browser)
| EvBrowserReleased (b : Browser).

(** ** The monad: state, exceptions, emitted events *)

Inductive Outcome (A : Type) :=
| Ok (a : A)
| Throw (e : JsValue).
Arguments Ok {A} a.
Arguments Throw {A} e.

Definition M (A : Type) : Type := World -> Outcome A * World * list Event.

Definition ret {A} (a : A) : M A := fun w => (Ok a, w, []).
Definition throw {A} (e : JsValue) : M A := fun w => (Throw e, w, []).
Definition bind {A B} (m : M A) (f : A -> M B) : M B :=
  fun w =>
    match m w with
    | (Ok a, w1, ev1) =>
        match f a w1 with
        | (r, w2, ev2) => (r, w2, ev1 ++ ev2)
        end
    | (Throw e, w1, ev1) => (Throw e, w1, ev1)
    end.

(** [try { m } catch (error) { handler error }] *)
Definition tryCatch {A} (m : M A) (handler : JsValue -> M A) : M A :=
  fun w =>
    match m w with
    | (Ok a, w1, ev1) => (Ok a, w1, ev1)
    | (Throw e, w1, ev1) =>
        match handler e w1 with
        | (r, w2, ev2) => (r, w2, ev1 ++ ev2)
        end
    end.

Declare Scope js_scope.
Delimit Scope js_scope with js.
Notation "x <- m ;; k" := (bind m (fun x => k))
  (at level 100, m at next level, right associativity) : js_scope.
Notation "m ;; k" := (bind m (fun _ => k))
  (at level 100, right associativity) : js_scope.
Local Open Scope js_scope.

Definition this : M Session := fun w => (Ok (session w), w, []).
Definition update (f : Session -> Session) : M unit :=
  fun w => (Ok tt, mkWorld (f (session w)) (driverBrowser w) (navCount w), []).
Definition emit (e : Event) : M unit := fun w => (Ok tt, w, [e]).

(** [o.prop] where [o] may be [undefined]. *)
Definition deref {A} (what : string) (o : option A) : M A :=
  match o with
  | Some a => ret a
  | None => throw (typeError what)
  end.

Fixpoint forEach {A} (l : list A) (f : A -> M unit) : M unit :=
  match l with
  | [] => ret tt
  | a :: l' => f a ;; forEach l' f
  end.

(** ** encodeURI *)

Definition uriUnescaped (c : ascii) : bool :=
  let n := nat_of_ascii c in
  ((65 <=? n) && (n <=? 90))%nat
  || ((97 <=? n) && (n <=? 122))%nat
  || ((48 <=? n) && (n <=? 57))%nat
  || existsb (Ascii.eqb c) (list_ascii_of_string ";/?:@&=+$,#-_.!~*'()").

Definition hexDigit (n : nat) : ascii :=
  nth n (list_ascii_of_string "0123456789ABCDEF") "0"%char.

Fixpoint encodeURI (s : string) : string :=
  match s with
  | EmptyString => EmptyString
  | String c rest =>
      if uriUnescaped c then String c (encodeURI rest)
      else
        let n := nat_of_ascii c in
        String "%" (String (hexDigit (n / 16)) (String (hexDigit (n mod 16)) (encodeURI rest)))
  end.

(** ** The class *)

Definition isNil {A} (o : option A) : bool :=
  match o with
  | Some _ => false
  | None => true
  end.

Definition isEmpty {A} (l : list A) : bool :=
  match l with
  | [] => true
  | _ :: _ => false
  end.

Section PageClass.

(** [System.serializeError] of the package common. *)
Variable serializeError : JsValue -> string.

Variable d : Deps.

(** [this.logger?.logError(msg, props)] and [this.logger?.logWarn]: the
    arguments are evaluated only when the logger is there. *)
Definition logOptional (level : LogLevel) (msg : string)
    (props : M (list (string * LogValue))) : M unit :=
  match logger d with
  | Some _ => p <- props ;; emit (EvLog level msg p)
  | None => ret tt
  end.

(** [this.logger.logError(msg, props)]: the member access comes first. *)
Definition logError (msg : string) (props : M (list (string * LogValue))) : M unit :=
  _ <- deref "logError" (logger d) ;;
  p <- props ;;
  emit (EvLog LevelError msg p).

Definition currentPage (s : Session) : option PageHandle := page s.

Definition userAgent : string := getUserAgent (pageConfigurator (pageNavigator d)).
Definition browserResolution : string :=
  getBrowserResolution (pageConfigurator (pageNavigator d)).

(** [this.page.url()] *)
Definition pageUrl : M string :=
  s <- this ;;
  p <- deref "url" (page s) ;;
  ret (page_url p).

(** Modelled from the spec: WebDriver.launch and WebDriver.connect
    (web-driver.ts is not among the sources).  The driver keeps the browser
    it started; a failure to start is thrown to the caller. *)
Definition webDriver_start (l : Launch) : M Browser :=
  match l with
  | Launched b =>
      fun w => (Ok b, mkWorld (session w) (Some b) (navCount w), [EvBrowserLaunched b])
  | LaunchFailed e => throw e
  end.

Definition closePage (p : PageHandle) : PageHandle :=
  mkPage (page_url p) (page_title p) true.

(** Modelled from the spec: WebDriver.close (web-driver.ts is not among the
    sources).  It releases the browser handle if the session was ever
    created and is safe to call on a session that failed to create.  The
    session is torn down by it: its page counts as closed from then on, which
    is what makes a scan after [close()] fail as not ready. *)
Definition webDriver_close : M unit :=
  fun w =>
    match driverBrowser w with
    | Some b =>
        (Ok tt,
         mkWorld (set_page (option_map closePage (page (session w))) (session w))
                 None (navCount w),
         [EvBrowserReleased b])
    | None => (Ok tt, w, [])
    end.

(** [create], page.ts lines 55-63. *)
Definition create (options : option BrowserStartOptions) : M unit :=
  b <- match match options with
             | Some o => browserWSEndpoint o
             | None => None
             end with
       | Some endpoint =>
           wd <- deref "connect" (webDriver d) ;;
           webDriver_start (connect wd endpoint)
       | None =>
           wd <- deref "launch" (webDriver d) ;;
           webDriver_start
             (launch wd match options with
                        | Some o => browserExecutablePath o
                        | None => None
                        end)
       end ;;
  update (set_browser (Some b)) ;;
  update (set_page (Some (mkPage "about:blank" EmptyString false))).

(** [this.pageNavigator.navigate(url, this.page, onError)], without the
    calls to [onError], which [navigateToUrl] replays. *)
Definition pageNavigator_navigate (url : string) : M NavOutcome :=
  fun w =>
    let o := navigate (pageNavigator d) (navCount w) url (page (session w)) in
    (Ok o,
     mkWorld
       (set_page
          (option_map (fun p => mkPage (nav_url o) (nav_title o) (page_isClosed p))
                      (page (session w)))
          (session w))
       (driverBrowser w) (S (navCount w)),
     [EvNavigate url o]).

(** The callback given to the navigator, lines 68-71. *)
Definition onNavigationError (browserError : BrowserError) : M unit :=
  logOptional LevelError "Page navigation error"
    (ret [("browserError", LogText (serializeError (JsBrowserErr browserError)))]) ;;
  update (set_lastBrowserError (Some browserError)).

(** [navigateToUrl], lines 65-72. *)
Definition navigateToUrl (url : string) : M unit :=
  update (set_requestUrl (Some url)) ;;
  update (set_lastBrowserError None) ;;
  o <- pageNavigator_navigate url ;;
  forEach (nav_errors o) onNavigationError ;;
  update (set_lastNavigationResponse (nav_response o)).

(** [close], lines 82-86: the guard is on the injected driver. *)
Definition close : M unit :=
  match webDriver d with
  | Some _ => webDriver_close
  | None => ret tt
  end.

(** [isOpen], lines 88-90. *)
Definition isOpen (s : Session) : bool :=
  negb (isNil (page s))
  && negb match page s with
          | Some p => page_isClosed p
          | None => false
          end
  && isNil (lastBrowserError s)
  && negb (isNil (lastNavigationResponse s)).

(** [runIfNavigationSucceeded], lines 92-104. *)
Definition runIfNavigationSucceeded {T} (action : M T) : M (Gated T) :=
  s <- this ;;
  match lastBrowserError s with
  | Some e => ret (NavigationFailed e (statusCode e))
  | None =>
      if negb (isOpen s) then throw notReadyError
      else t <- action ;; ret (ActionResult t)
  end.

(** [redirectChain().length > 0 ||
     (this.requestUrl !== undefined && encodeURI(this.requestUrl) !== observed)] *)
Definition redirected (resp : HTTPResponse) (s : Session) (observed : M string) : M bool :=
  if (0 <? length (redirectChain resp))%nat then ret true
  else
    match requestUrl s with
    | None => ret false
    | Some u => o <- observed ;; ret (negb (encodeURI u =? o)%string)
    end.

(** [scanPageForIssues], lines 106-136.  The [try] holds the call to
    [analyze] only; its [catch] returns from the method. *)
Definition scanPageForIssues (contentSourcePath : option string)
    : M AxeScanResults.t :=
  s <- this ;;
  let axePuppeteer :=
    createAxePuppeteer (axePuppeteerFactory d) (page s) contentSourcePath in
  r <- tryCatch
         (emit (EvAxeAnalyze contentSourcePath) ;;
          match analyze axePuppeteer with
          | AxeReturned axeResults => ret (inr axeResults)
          | AxeThrew error => throw error
          end)
         (fun error =>
            logOptional LevelError "Axe core engine error"
              (url <- pageUrl ;;
               ret [("browserError", LogText (serializeError error));
                    ("url", LogText url)]) ;;
            url <- pageUrl ;;
            ret (inl (AxeScanResults.mk None None None None None None (Some url)
                        (Some (JsStr ("Axe core engine error. " ++ serializeError error)%string))))) ;;
  match r with
  | inl failure => ret failure
  | inr axeResults =>
      s <- this ;;
      p <- deref "title" (page s) ;;
      b <- deref "version" (browser s) ;;
      resp <- deref "status" (lastNavigationResponse s) ;;
      let scanResults :=
        AxeScanResults.mk (Some axeResults) (Some (page_title p))
          (Some (browser_version b)) (Some (status resp))
          (Some userAgent) (Some browserResolution) None None in
      c <- redirected resp s (ret (axe_url axeResults)) ;;
      if c : bool then
        logOptional LevelWarn "Scanning performed on redirected page"
          (ret [("redirectedUrl", LogText (axe_url axeResults))]) ;;
        ret (AxeScanResults.mk (Some axeResults) (Some (page_title p))
               (Some (browser_version b)) (Some (status resp))
               (Some userAgent) (Some browserResolution)
               (Some (axe_url axeResults)) None)
      else ret scanResults
  end.

(** [reloadPageFunc], lines 140-144, called on the page the engine was given,
    which is [this.page]. *)
Definition reloadPageFunc : M ReloadPageResponse :=
  url <- pageUrl ;;
  navigateToUrl url ;;
  s <- this ;;
  ret (mkReload match lastNavigationResponse s with
                | Some r => ok r
                | None => false
                end
                (lastBrowserError s)).

(** [this.privacyPageScanner.scanPageForPrivacy(this.page, reloadPageFunc)] *)
Fixpoint runPrivacyEngine (eng : PrivacyEngine) : M PrivacyResults :=
  match eng with
  | PReturn r => ret r
  | PThrow e => throw e
  | PReload k => resp <- reloadPageFunc ;; runPrivacyEngine (k resp)
  end.

(** [errors], lines 173-175. *)
Definition consentErrors (privacyResult : PrivacyResults) : list (option JsValue) :=
  map consent_error
    (filter (fun result => negb (isNil (consent_error result)))
       (cookieCollectionConsentResults privacyResult)).

(** [scanPageForCookies], lines 138-185. *)
Definition scanPageForCookies : M PrivacyScanResult.t :=
  s0 <- this ;;
  resp0 <- deref "status" (lastNavigationResponse s0) ;;
  let navigationStatusCode := status resp0 in
  r <- tryCatch
         (emit EvPrivacyScan ;;
          privacyResult <-
            runPrivacyEngine (scanPageForPrivacy (privacyPageScanner d) (page s0)) ;;
          ret (inr privacyResult))
         (fun error =>
            logOptional LevelError "Privacy scan engine error"
              (url <- pageUrl ;;
               ret [("browserError", LogText (serializeError error));
                    ("url", LogText url)]) ;;
            url <- pageUrl ;;
            ret (inl (PrivacyScanResult.mk None None (Some url)
                        (Some (JsStr ("Privacy scan engine error. " ++ serializeError error)%string))))) ;;
  match r with
  | inl failure => ret failure
  | inr privacyResult =>
      s <- this ;;
      let report := mkReport privacyResult navigationStatusCode (requestUrl s) in
      resp <- deref "request" (lastNavigationResponse s) ;;
      c <- redirected resp s pageUrl ;;
      scannedUrl <-
        (if c : bool then
           logOptional LevelWarn "Scanning performed on redirected page"
             (url <- pageUrl ;; ret [("redirectedUrl", LogText url)]) ;;
           url <- pageUrl ;;
           ret (Some url)
         else ret None) ;;
      let errors := consentErrors privacyResult in
      if negb (isEmpty errors) then
        logError "Failed to collect cookies for test scenario."
          (url <- pageUrl ;;
           ret [("url", LogText url); ("errors", LogJson errors)]) ;;
        ret (PrivacyScanResult.mk (Some report) (Some navigationStatusCode) scannedUrl
               (hd None errors))
      else
        ret (PrivacyScanResult.mk (Some report) (Some navigationStatusCode) scannedUrl None)
  end.

Definition scanForA11yIssues (contentSourcePath : option string)
    : M (Gated AxeScanResults.t) :=
  runIfNavigationSucceeded (scanPageForIssues contentSourcePath).

Definition scanForPrivacy : M (Gated PrivacyScanResult.t) :=
  runIfNavigationSucceeded scanPageForCookies.

End PageClass.

(** ** What a navigation leaves behind *)

(** The error the callback recorded last, if it was called at all. *)
Definition lastRecorded (errs : list BrowserError) (before : option BrowserError)
    : option BrowserError :=
  fold_left (fun _ e => Some e) errs before.

Definition retarget (o : NavOutcome) (p : PageHandle) : PageHandle :=
  mkPage (nav_url o) (nav_title o) (page_isClosed p).

Definition settled (url : string) (o : NavOutcome) (s : Session) : Session :=
  mkSession (Some url) (option_map (retarget o) (page s)) (browser s)
            (nav_response o) (lastRecorded (nav_errors o) None).

(** The last navigation among some events. *)
Fixpoint lastNavigation (evs : list Event) : option (string * NavOutcome) :=
  match evs with
  | [] => None
  | e :: rest =>
      match lastNavigation rest with
      | Some n => Some n
      | None =>
          match e with
          | EvNavigate url o => Some (url, o)
          | _ => None
          end
      end
  end.

Fixpoint countNavigations (evs : list Event) : nat :=
  match evs with
  | [] => 0
  | EvNavigate _ _ :: rest => S (countNavigations rest)
  | _ :: rest => countNavigations rest
  end.

(** The session after the navigations among [evs]: only the last one shows. *)
Definition afterNavigations (evs : list Event) (w : World) : World :=
  mkWorld
    match lastNavigation evs with
    | Some (url, o) => settled url o (session w)
    | None => session w
    end
    (driverBrowser w) (countNavigations evs + navCount w).

(** Every navigation among [evs] went to the URL the page showed then. *)
Fixpoint reloadsOfPage (current : string) (evs : list Event) : Prop :=
  match evs with
  | [] => True
  | EvNavigate url o :: rest => url = current /\ reloadsOfPage (nav_url o) rest
  | _ :: rest => reloadsOfPage current rest
  end.

Definition pageOpen (s : Session) : bool :=
  match page s with
  | Some p => negb (page_isClosed p)
  | None => false
  end.

(** The redirect / mismatch policy, on plain values. *)
Definition diverges (resp : HTTPResponse) (requested : option string) (observed : string)
    : bool :=
  (0 <? length (redirectChain resp))%nat
  || match requested with
     | Some u => negb (encodeURI u =? observed)%string
     | None => false
     end.

(** The first error among the sub-results, in list order. *)
Fixpoint firstConsentError (l : list ConsentResult) : option JsValue :=
  match l with
  | [] => None
  | c :: rest =>
      match consent_error c with
      | Some e => Some e
      | None => firstConsentError rest
      end
  end.

(** ** What the scans are expected to log and return *)

Definition isLog (e : Event) : Prop :=
  match e with
  | EvLog _ _ _ => True
  | _ => False
  end.

Section Expected.

Variable serializeError : JsValue -> string.
Variable d : Deps.

Definition navigationErrorLogs (errs : list BrowserError) : list Event :=
  match logger d with
  | Some _ =>
      map (fun e =>
             EvLog LevelError "Page navigation error"
               [("browserError", LogText (serializeError (JsBrowserErr e)))])
          errs
  | None => []
  end.

Definition redirectWarning (observed : string) : list Event :=
  match logger d with
  | Some _ =>
      [EvLog LevelWarn "Scanning performed on redirected page"
         [("redirectedUrl", LogText observed)]]
  | None => []
  end.

Definition consentErrorLog (url : string) (errors : list (option JsValue)) : Event :=
  EvLog LevelError "Failed to collect cookies for test scenario."
    [("url", LogText url); ("errors", LogJson errors)].

(** What a privacy scan that gets through logs after the engine is done. *)
Definition privacyLogs (resp1 : HTTPResponse) (s1 : Session) (p1 : PageHandle)
    (pr : PrivacyResults) : list Event :=
  (if diverges resp1 (requestUrl s1) (page_url p1)
   then redirectWarning (page_url p1) else [])
  ++ (if isEmpty (consentErrors pr) then []
      else [consentErrorLog (page_url p1) (consentErrors pr)]).

(** ... and what it returns. *)
Definition privacyScanResult (resp0 resp1 : HTTPResponse) (s1 : Session)
    (p1 : PageHandle) (pr : PrivacyResults) : PrivacyScanResult.t :=
  PrivacyScanResult.mk
    (Some (mkReport pr (status resp0) (requestUrl s1)))
    (Some (status resp0))
    (if diverges resp1 (requestUrl s1) (page_url p1) then Some (page_url p1) else None)
    (hd None (consentErrors pr)).

Definition engineErrorLog (msg : string) (e : JsValue) (url : string) : list Event :=
  match logger d with
  | Some _ =>
      [EvLog LevelError msg
         [("browserError", LogText (serializeError e)); ("url", LogText url)]]
  | None => []
  end.

Definition privacyEngineFailure (e : JsValue) (url : string) : PrivacyScanResult.t :=
  PrivacyScanResult.mk None None (Some url)
    (Some (JsStr ("Privacy scan engine error. " ++ serializeError e)%string)).

Definition axeEngineFailure (e : JsValue) (url : string) : AxeScanResults.t :=
  AxeScanResults.mk None None None None None None (Some url)
    (Some (JsStr ("Axe core engine error. " ++ serializeError e)%string)).

Definition axeScanResult (p : PageHandle) (b : Browser) (resp : HTTPResponse)
    (s : Session) (ar : AxeResults) : AxeScanResults.t :=
  AxeScanResults.mk (Some ar) (Some (page_title p)) (Some (browser_version b))
    (Some (status resp)) (Some (userAgent d)) (Some (browserResolution d))
    (if diverges resp (requestUrl s) (axe_url ar) then Some (axe_url ar) else None)
    None.

Definition axeEngine (w : World) (c : option string) : AxeOutcome :=
  analyze (createAxePuppeteer (axePuppeteerFactory d) (page (session w)) c).

End Expected.

(** ** Test doubles *)

Module Doubles.

Definition serializeError (v : JsValue) : string :=
  match v with
  | JsStr s => s
  | JsErrorObj name msg => (name ++ ": " ++ msg)%string
  | JsBrowserErr e => message e
  end.

(** A navigator that plays a script, one outcome per navigation. *)
Definition scripted (script : list NavOutcome) : PageNavigator :=
  mkNavigator
    (fun n url _ => nth n script (mkNav None [] url EmptyString))
    (mkConfigurator "agent/1.0" "1920x1080").

Definition chrome : Browser := mkBrowser "Chrome/100".

Definition driver : WebDriver :=
  mkWebDriver (fun _ => Launched chrome) (fun _ => Launched chrome).

Definition axe (o : AxeOutcome) : AxePuppeteerFactory :=
  mkAxeFactory (fun _ _ => mkAxePuppeteer o).

Definition privacy (eng : PrivacyEngine) : PrivacyPageScanner :=
  mkPrivacyScanner (fun _ => eng).

Definition deps (script : list NavOutcome) (a : AxeOutcome) (eng : PrivacyEngine)
    (lg : option GlobalLogger) : Deps :=
  mkDeps (Some driver) (axe a) (scripted script) (privacy eng) lg.

Definition okResponse (code : Z) : HTTPResponse := mkResponse code true [].

Definition arrives (code : Z) (url : string) : NavOutcome :=
  mkNav (Some (okResponse code)) [] url "title".

Definition notFound : BrowserError :=
  mkBrowserError "HttpErrorCode" "Page not found" (Some 404%Z).

Definition noAxe : AxeOutcome := AxeReturned (mkAxeResults "http://a.test/x" []).
Definition noPrivacy : PrivacyEngine := PReturn (mkPrivacyResults "http://a.test/x" []).

(** [create()] then [navigateToUrl(url)] on a fresh page object. *)
Definition opened (dp : Deps) (url : string) : World :=
  match bind (create dp None) (fun _ => navigateToUrl serializeError dp url) newWorld with
  | (_, w, _) => w
  end.

End Doubles.

(** ** Scenarios *)

Module Scenarios.
Import Doubles.

Definition url : string := "http://a.test/x".

(** A navigation that ends in a 404 browser error. *)
Definition failing (lg : option GlobalLogger) : Deps :=
  deps [mkNav None [notFound] "chrome-error://chromewebdata/" EmptyString] noAxe noPrivacy lg.

(** Both engines throw. *)
Definition boom : JsValue := JsErrorObj "Error" "engine crashed".
Definition throwing (lg : option GlobalLogger) : Deps :=
  deps [arrives 200 url] (AxeThrew boom) (PThrow boom) lg.

(** The privacy engine reloads once and then returns what it found. *)
Definition reloadOnce (pr : PrivacyResults) : PrivacyEngine :=
  PReload (fun _ => PReturn pr).

Definition found (errors : list (option JsValue)) : PrivacyResults :=
  mkPrivacyResults url (map (mkConsent None) errors).

Definition reloading (second : NavOutcome) (errors : list (option JsValue))
    (lg : option GlobalLogger) : Deps :=
  deps [arrives 200 url; second] noAxe (reloadOnce (found errors)) lg.

(** One navigation that arrives, engines that find nothing. *)
Definition plain (lg : option GlobalLogger) : Deps :=
  deps [arrives 200 url] noAxe noPrivacy lg.

(** The privacy engine returns sub-results with these errors. *)
Definition consent (errors : list (option JsValue)) (lg : option GlobalLogger) : Deps :=
  deps [arrives 200 url] noAxe (PReturn (found errors)) lg.

(** A reload that hands a 404 to the error callback and returns a response. *)
Definition reloadFails : NavOutcome :=
  mkNav (Some (okResponse 200)) [notFound] url "title".

Definition reloadError : Deps := reloading reloadFails [] None.

(** The browser cannot be started. *)
Definition unlaunchable : Deps :=
  mkDeps (Some (mkWebDriver (fun _ => LaunchFailed boom) (fun _ => LaunchFailed boom)))
         (axe noAxe) (scripted []) (privacy noPrivacy) None.

Definition failedToCreate : World :=
  match create unlaunchable None newWorld with
  | (_, w, _) => w
  end.

(** The first navigation is redirected to another page. *)
Definition landing : string := "http://a.test/landing".
Definition redirectedThenReload : Deps :=
  deps [arrives 200 landing; arrives 200 landing] noAxe (reloadOnce (found [])) None.

(** The session is created, navigated, and closed again. *)
Definition closedAgain (dp : Deps) : World :=
  match close dp (opened dp url) with
  | (_, w, _) => w
  end.

End Scenarios.

(** ** Two readings to be tested *)

(** The invariant as the data model words it, for privacy scans. *)
Definition success_only_when_navigation_succeeded : Prop :=
  forall ser d w w' r rep evs,
    scanForPrivacy ser d w = (Ok (ActionResult r), w', evs) ->
    PrivacyScanResult.results r = Some rep ->
    lastBrowserError (session w') = None
    /\ lastNavigationResponse (session w') <> None
    /\ pageOpen (session w') = true.

(** The rule read over every result a privacy scan returns. *)
Definition scannedUrl_iff_diverges_on_every_result : Prop :=
  forall ser d w w' r evs resp p,
    scanForPrivacy ser d w = (Ok (ActionResult r), w', evs) ->
    lastNavigationResponse (session w') = Some resp ->
    page (session w') = Some p ->
    (PrivacyScanResult.scannedUrl r <> None
     <-> diverges resp (requestUrl (session w')) (page_url p) = true).

(** ** Further vocabulary *)

(** The events a reload can leave: a navigation answered by the navigator,
    or a log entry. *)
Definition reloadEvent (d : Deps) (e : Event) : Prop :=
  match e with
  | EvNavigate url o => exists n pg, o = navigate (pageNavigator d) n url pg
  | EvLog _ _ _ => True
  | _ => False
  end.

Fixpoint countEngineRuns (evs : list Event) : nat :=
  match evs with
  | [] => 0
  | EvAxeAnalyze _ :: rest => S (countEngineRuns rest)
  | EvPrivacyScan :: rest => S (countEngineRuns rest)
  | _ :: rest => countEngineRuns rest
  end.

(** Which driver call [create] makes for given options. *)
Definition startOf (wd : WebDriver) (options : option BrowserStartOptions) : Launch :=
  match options with
  | Some o =>
      match browserWSEndpoint o with
      | Some endpoint => connect wd endpoint
      | None => launch wd (browserExecutablePath o)
      end
  | None => launch wd None
  end.

Definition redirectWarningEntry (observed : string) : Event :=
  EvLog LevelWarn "Scanning performed on redirected page"
    [("redirectedUrl", LogText observed)].

Module MoreScenarios.
Import Doubles.

Definition errorPage : string := "chrome-error://chromewebdata/".

(** A navigation that reports a 404 and returns nothing. *)
Definition lost : NavOutcome := mkNav None [notFound] errorPage "error".

(** The engine reloads once and the reload returns nothing. *)
Definition reloadLost : Deps := Scenarios.reloading lost [] None.

(** The navigation went through one redirect. *)
Definition viaRedirect (lg : option GlobalLogger) : Deps :=
  deps [mkNav (Some (mkResponse 200 true ["http://a.test/old"])) [] Scenarios.url "title"]
       noAxe noPrivacy lg.

(** A requested URL with a space in it, which the page shows as it is. *)
Definition spaced : string := "http://a.test/a b".
Definition verbatim : Deps :=
  deps [arrives 200 spaced] (AxeReturned (mkAxeResults spaced []))
       (PReturn (mkPrivacyResults spaced [])) None.

(** A navigation that fails, then one that arrives. *)
Definition recovers : Deps := deps [lost; arrives 200 Scenarios.url] noAxe noPrivacy None.

(** A session closed and then created again. *)
Definition recreated : World :=
  match create (Scenarios.plain None) None (Scenarios.closedAgain (Scenarios.plain None)) with
  | (_, w, _) => w
  end.


(** A driver whose two ways of starting give different browsers. *)
Definition twoWays : WebDriver :=
  mkWebDriver (fun _ => Launched (mkBrowser "launched"))
              (fun _ => Launched (mkBrowser "remote")).
Definition twoWaysDeps : Deps :=
  mkDeps (Some twoWays) (axe noAxe) (scripted []) (privacy noPrivacy) None.

(** Options that name both an executable and a remote endpoint. *)
Definition withExecutable : BrowserStartOptions :=
  mkOptions (Some "/usr/bin/chromium") (Some "ws://127.0.0.1:9222").

End MoreScenarios.

(** ** Events and navigations *)

Ltac tidy_events :=
  repeat rewrite app_nil_r; repeat rewrite <- app_assoc; simpl.

Lemma afterNavigations_nil (w : World) : afterNavigations [] w = w.
Proof. destruct w; reflexivity. Qed.

Lemma lastNavigation_app (e1 e2 : list Event) :
  lastNavigation (e1 ++ e2) =
  match lastNavigation e2 with
  | Some n => Some n
  | None => lastNavigation e1
  end.
Proof.
  induction e1 as [|e e1 IH]; simpl.
  - destruct (lastNavigation e2); reflexivity.
  - rewrite IH. destruct (lastNavigation e2); reflexivity.
Qed.

Lemma countNavigations_app (e1 e2 : list Event) :
  countNavigations (e1 ++ e2) = countNavigations e1 + countNavigations e2.
Proof.
  induction e1 as [|e e1 IH]; simpl; [reflexivity|].
  destruct e; simpl; rewrite IH; reflexivity.
Qed.

Lemma logs_lastNavigation (l : list Event) :
  Forall isLog l -> lastNavigation l = None.
Proof.
  induction 1 as [|e l He _ IH]; simpl; [reflexivity|].
  rewrite IH. destruct e; simpl in He; tauto.
Qed.

Lemma logs_countNavigations (l : list Event) :
  Forall isLog l -> countNavigations l = 0.
Proof.
  induction 1 as [|e l He _ IH]; simpl; [reflexivity|].
  destruct e; simpl in He; tauto.
Qed.

Lemma logs_reloadsOfPage (l rest : list Event) (current : string) :
  Forall isLog l -> reloadsOfPage current (l ++ rest) <-> reloadsOfPage current rest.
Proof.
  induction 1 as [|e l He _ IH]; simpl; [tauto|].
  destruct e; simpl in He; tauto.
Qed.

Lemma settled_settled (u1 u2 : string) (o1 o2 : NavOutcome) (s : Session) :
  settled u2 o2 (settled u1 o1 s) = settled u2 o2 s.
Proof.
  unfold settled; simpl. destruct (page s); reflexivity.
Qed.

Lemma afterNavigations_app (e1 e2 : list Event) (w : World) :
  afterNavigations e2 (afterNavigations e1 w) = afterNavigations (e1 ++ e2) w.
Proof.
  unfold afterNavigations; simpl.
  rewrite lastNavigation_app, countNavigations_app.
  f_equal; [|lia].
  destruct (lastNavigation e2) as [[u2 o2]|]; [|reflexivity].
  destruct (lastNavigation e1) as [[u1 o1]|]; [|reflexivity].
  apply settled_settled.
Qed.

Lemma reloadsOfPage_app (e1 e2 : list Event) (current : string) :
  reloadsOfPage current e1 ->
  reloadsOfPage match lastNavigation e1 with
                | Some (_, o) => nav_url o
                | None => current
                end e2 ->
  reloadsOfPage current (e1 ++ e2).
Proof.
  revert current. induction e1 as [|e e1 IH]; intros current H1 H2; simpl in *.
  - exact H2.
  - destruct e; try (apply IH; [exact H1|]; destruct (lastNavigation e1) as [[? ?]|]; exact H2).
    destruct H1 as [Hu H1]. split; [exact Hu|].
    apply IH; [exact H1|]. destruct (lastNavigation e1) as [[? ?]|]; exact H2.
Qed.

(** ** The methods, run *)

Section Runs.

Variable serializeError : JsValue -> string.
Variable d : Deps.

Lemma navigationErrorLogs_logs (errs : list BrowserError) :
  Forall isLog (navigationErrorLogs serializeError d errs).
Proof.
  unfold navigationErrorLogs. destruct (logger d); [|constructor].
  induction errs; simpl; constructor; simpl; auto.
Qed.

Lemma navigationErrorLogs_cons (e : BrowserError) (errs : list BrowserError) :
  navigationErrorLogs serializeError d (e :: errs) = navigationErrorLogs serializeError d [e] ++ navigationErrorLogs serializeError d errs.
Proof. unfold navigationErrorLogs. destruct (logger d); reflexivity. Qed.

Lemma onNavigationError_run (e : BrowserError) (w : World) :
  onNavigationError serializeError d e w =
  (Ok tt,
   mkWorld (set_lastBrowserError (Some e) (session w)) (driverBrowser w) (navCount w),
   navigationErrorLogs serializeError d [e]).
Proof.
  unfold onNavigationError, logOptional, navigationErrorLogs, bind, update, emit, ret.
  destruct (logger d); simpl; destruct w; reflexivity.
Qed.

Lemma forEach_onNavigationError (errs : list BrowserError) :
  forall w,
    forEach errs (onNavigationError serializeError d) w =
    (Ok tt,
     mkWorld (set_lastBrowserError (lastRecorded errs (lastBrowserError (session w)))
                (session w))
             (driverBrowser w) (navCount w),
     navigationErrorLogs serializeError d errs).
Proof.
  induction errs as [|e errs IH]; intro w.
  - unfold navigationErrorLogs. simpl. unfold ret.
    destruct (logger d); destruct w as [[? ? ? ? ?] ? ?]; reflexivity.
  - change (forEach (e :: errs) (onNavigationError serializeError d))
      with (bind (onNavigationError serializeError d e)
                 (fun _ => forEach errs (onNavigationError serializeError d))).
    rewrite (navigationErrorLogs_cons e errs).
    unfold bind. rewrite onNavigationError_run, IH. reflexivity.
Qed.

Lemma navigateToUrl_run (url : string) (w : World) :
  let o := navigate (pageNavigator d) (navCount w) url (page (session w)) in
  navigateToUrl serializeError d url w =
  (Ok tt,
   mkWorld (settled url o (session w)) (driverBrowser w) (S (navCount w)),
   EvNavigate url o :: navigationErrorLogs serializeError d (nav_errors o)).
Proof.
  intro o. unfold navigateToUrl, bind at 1 2 3.
  unfold update at 1 2, pageNavigator_navigate. simpl.
  unfold bind. rewrite forEach_onNavigationError. simpl.
  rewrite app_nil_r. reflexivity.
Qed.

Lemma reloadPageFunc_run (w : World) (p : PageHandle) :
  page (session w) = Some p ->
  let o := navigate (pageNavigator d) (navCount w) (page_url p) (Some p) in
  let evs := EvNavigate (page_url p) o :: navigationErrorLogs serializeError d (nav_errors o) in
  reloadPageFunc serializeError d w =
  (Ok (mkReload match nav_response o with
                | Some r => ok r
                | None => false
                end
                (lastRecorded (nav_errors o) None)),
   afterNavigations evs w, evs).
Proof.
  intros Hp o evs.
  unfold reloadPageFunc, pageUrl, bind at 1 2 3. unfold this at 1, bind, deref, ret.
  rewrite Hp. rewrite navigateToUrl_run. rewrite Hp. fold o. simpl.
  unfold afterNavigations. subst evs. simpl.
  rewrite (logs_lastNavigation _ (navigationErrorLogs_logs _)).
  rewrite (logs_countNavigations _ (navigationErrorLogs_logs _)).
  rewrite app_nil_r. reflexivity.
Qed.

(** The engine, whatever it does, only navigates: the session it leaves is
    the one its last reload settled, the page is still there, and every
    reload went to the URL the page was showing. *)
Lemma runPrivacyEngine_run (eng : PrivacyEngine) :
  forall (w : World) (p : PageHandle),
    page (session w) = Some p ->
    exists r evs,
      runPrivacyEngine serializeError d eng w = (r, afterNavigations evs w, evs)
      /\ reloadsOfPage (page_url p) evs.
Proof.
  induction eng as [pr|e|k IH]; intros w p Hp.
  - exists (Ok pr), []. rewrite afterNavigations_nil. split; [reflexivity|exact I].
  - exists (Throw e), []. rewrite afterNavigations_nil. split; [reflexivity|exact I].
  - simpl. unfold bind.
    pose proof (reloadPageFunc_run w p Hp) as Hr. cbv zeta in Hr.
    set (o := navigate (pageNavigator d) (navCount w) (page_url p) (Some p)) in *.
    set (evs1 := EvNavigate (page_url p) o :: navigationErrorLogs serializeError d (nav_errors o)) in *.
    rewrite Hr.
    assert (Hl : lastNavigation evs1 = Some (page_url p, o)).
    { subst evs1. simpl.
      rewrite (logs_lastNavigation _ (navigationErrorLogs_logs _)). reflexivity. }
    assert (Hp1 : page (session (afterNavigations evs1 w)) = Some (retarget o p)).
    { unfold afterNavigations. rewrite Hl. simpl. rewrite Hp. reflexivity. }
    destruct (IH (mkReload match nav_response o with
                           | Some r => ok r
                           | None => false
                           end (lastRecorded (nav_errors o) None))
                 _ _ Hp1) as (r & evs2 & Hrun & Hchain).
    rewrite Hrun. exists r, (evs1 ++ evs2).
    rewrite afterNavigations_app. split; [reflexivity|].
    apply reloadsOfPage_app.
    + subst evs1. simpl. split; [reflexivity|].
      rewrite <- (app_nil_r (navigationErrorLogs serializeError d _)).
      apply logs_reloadsOfPage; [apply navigationErrorLogs_logs|exact I].
    + rewrite Hl. exact Hchain.
Qed.

End Runs.

(** ** The gate and the two scans, run *)

Section Scans.

Variable serializeError : JsValue -> string.
Variable d : Deps.

(** Without a logger the optional logging calls do nothing at all. *)
Lemma logOptional_absent (level : LogLevel) (msg : string)
    (props : M (list (string * LogValue))) (w : World) :
  logger d = None ->
  logOptional d level msg props w = (Ok tt, w, []).
Proof.
  intro H. unfold logOptional. rewrite H. reflexivity.
Qed.


Lemma isOpen_true (s : Session) :
  isOpen s = true ->
  lastBrowserError s = None
  /\ pageOpen s = true
  /\ (exists p, page s = Some p)
  /\ (exists resp, lastNavigationResponse s = Some resp).
Proof.
  unfold isOpen, pageOpen.
  destruct (page s) as [p|], (lastBrowserError s), (lastNavigationResponse s) as [resp|];
    simpl; try discriminate; try (rewrite andb_false_r; discriminate).
  rewrite !andb_true_r. intro H. repeat split; eauto.
Qed.

Lemma gate_error {T} (action : M T) (w : World) (e : BrowserError) :
  lastBrowserError (session w) = Some e ->
  runIfNavigationSucceeded action w = (Ok (NavigationFailed e (statusCode e)), w, []).
Proof.
  intro H. unfold runIfNavigationSucceeded, bind, this. rewrite H. reflexivity.
Qed.

Lemma gate_not_ready {T} (action : M T) (w : World) :
  lastBrowserError (session w) = None ->
  isOpen (session w) = false ->
  runIfNavigationSucceeded action w = (Throw notReadyError, w, []).
Proof.
  intros H1 H2. unfold runIfNavigationSucceeded, bind, this. rewrite H1, H2. reflexivity.
Qed.

Lemma gate_open {T} (action : M T) (w : World) :
  isOpen (session w) = true ->
  runIfNavigationSucceeded action w =
  match action w with
  | (Ok t, w1, evs) => (Ok (ActionResult t), w1, evs)
  | (Throw e, w1, evs) => (Throw e, w1, evs)
  end.
Proof.
  intro H. destruct (isOpen_true _ H) as (He & _).
  unfold runIfNavigationSucceeded, bind, this. rewrite He, H. simpl.
  destruct (action w) as [[[t|e] w1] evs]; simpl; [rewrite app_nil_r|]; reflexivity.
Qed.

Lemma scanPageForCookies_returns
    (w w1 : World) (resp0 resp1 : HTTPResponse) (p1 : PageHandle)
    (pr : PrivacyResults) (evs1 : list Event) :
  lastNavigationResponse (session w) = Some resp0 ->
  runPrivacyEngine serializeError d
    (scanPageForPrivacy (privacyPageScanner d) (page (session w))) w = (Ok pr, w1, evs1) ->
  lastNavigationResponse (session w1) = Some resp1 ->
  page (session w1) = Some p1 ->
  consentErrors pr = [] \/ logger d <> None ->
  scanPageForCookies serializeError d w =
  (Ok (privacyScanResult resp0 resp1 (session w1) p1 pr), w1,
   EvPrivacyScan :: evs1 ++ privacyLogs d resp1 (session w1) p1 pr).
Proof.
  intros H0 Hrun H1 Hp1 Hlog.
  unfold scanPageForCookies.
  unfold bind at 1 2 3. unfold this at 1. unfold deref at 1. rewrite H0.
  unfold ret at 1. cbv beta iota.
  unfold tryCatch, bind at 1 2, emit at 1. rewrite Hrun.
  unfold ret at 1. cbv beta iota.
  unfold privacyScanResult, privacyLogs, redirected, diverges, redirectWarning,
    consentErrorLog, logOptional, logError, pageUrl, bind, this, deref, ret, emit.
  cbv beta. rewrite H1. cbv beta iota.
  destruct (consentErrors pr) as [|e0 errs] eqn:He;
    destruct (logger d) as [lg|];
    try (destruct Hlog as [Hlog|Hlog]; congruence);
    destruct (0 <? length (redirectChain resp1))%nat;
    destruct (requestUrl (session w1)) as [u|];
    repeat (first [rewrite Hp1 | progress cbn]);
    try destruct (encodeURI u =? page_url p1)%string;
    repeat (first [rewrite Hp1 | progress cbn]);
    tidy_events; reflexivity.
Qed.

Lemma scanPageForCookies_engine_throws
    (w w1 : World) (resp0 : HTTPResponse) (p1 : PageHandle)
    (e : JsValue) (evs1 : list Event) :
  lastNavigationResponse (session w) = Some resp0 ->
  runPrivacyEngine serializeError d
    (scanPageForPrivacy (privacyPageScanner d) (page (session w))) w = (Throw e, w1, evs1) ->
  page (session w1) = Some p1 ->
  scanPageForCookies serializeError d w =
  (Ok (privacyEngineFailure serializeError e (page_url p1)), w1,
   EvPrivacyScan :: evs1 ++ engineErrorLog serializeError d "Privacy scan engine error" e (page_url p1)).
Proof.
  intros H0 Hrun Hp1.
  unfold scanPageForCookies.
  unfold bind at 1 2 3. unfold this at 1. unfold deref at 1. rewrite H0.
  unfold ret at 1. cbv beta iota.
  unfold tryCatch, bind at 1 2, emit at 1. rewrite Hrun.
  unfold privacyEngineFailure, engineErrorLog, logOptional, pageUrl, bind, this,
    deref, ret, emit.
  destruct (logger d) as [lg|];
    repeat (first [rewrite Hp1 | progress cbn]); tidy_events; reflexivity.
Qed.

Lemma scanPageForCookies_no_response
    (w w1 : World) (resp0 : HTTPResponse) (pr : PrivacyResults) (evs1 : list Event) :
  lastNavigationResponse (session w) = Some resp0 ->
  runPrivacyEngine serializeError d
    (scanPageForPrivacy (privacyPageScanner d) (page (session w))) w = (Ok pr, w1, evs1) ->
  lastNavigationResponse (session w1) = None ->
  scanPageForCookies serializeError d w =
  (Throw (typeError "request"), w1, EvPrivacyScan :: evs1).
Proof.
  intros H0 Hrun H1.
  unfold scanPageForCookies.
  unfold bind at 1 2 3. unfold this at 1. unfold deref at 1. rewrite H0.
  unfold ret at 1. cbv beta iota.
  unfold tryCatch, bind at 1 2, emit at 1. rewrite Hrun.
  unfold ret at 1. cbv beta iota.
  unfold bind, this, deref, throw. cbv beta. rewrite H1. cbn.
  tidy_events. reflexivity.
Qed.

Lemma scanPageForCookies_logger_fault
    (w w1 : World) (resp0 resp1 : HTTPResponse) (p1 : PageHandle)
    (pr : PrivacyResults) (evs1 : list Event) :
  lastNavigationResponse (session w) = Some resp0 ->
  runPrivacyEngine serializeError d
    (scanPageForPrivacy (privacyPageScanner d) (page (session w))) w = (Ok pr, w1, evs1) ->
  lastNavigationResponse (session w1) = Some resp1 ->
  page (session w1) = Some p1 ->
  consentErrors pr <> [] ->
  logger d = None ->
  scanPageForCookies serializeError d w =
  (Throw (typeError "logError"), w1, EvPrivacyScan :: evs1).
Proof.
  intros H0 Hrun H1 Hp1 He Hlog.
  unfold scanPageForCookies.
  unfold bind at 1 2 3. unfold this at 1. unfold deref at 1. rewrite H0.
  unfold ret at 1. cbv beta iota.
  unfold tryCatch, bind at 1 2, emit at 1. rewrite Hrun.
  unfold ret at 1. cbv beta iota.
  unfold redirected, logOptional, logError, pageUrl, bind, this, deref, ret, emit, throw.
  cbv beta. rewrite H1, Hlog. cbv beta iota.
  destruct (consentErrors pr) as [|e0 errs]; [congruence|].
  destruct (0 <? length (redirectChain resp1))%nat;
    destruct (requestUrl (session w1)) as [u|];
    repeat (first [rewrite Hp1 | progress cbn]);
    try destruct (encodeURI u =? page_url p1)%string;
    repeat (first [rewrite Hp1 | progress cbn]);
    tidy_events; reflexivity.
Qed.

Lemma afterNavigations_page (evs : list Event) (w : World) (p : PageHandle) :
  page (session w) = Some p ->
  exists p1,
    page (session (afterNavigations evs w)) = Some p1
    /\ page_isClosed p1 = page_isClosed p.
Proof.
  intro Hp. unfold afterNavigations. simpl.
  destruct (lastNavigation evs) as [[u o]|]; simpl.
  - rewrite Hp. simpl. eexists; split; reflexivity.
  - exists p. split; [exact Hp|reflexivity].
Qed.

(** Whatever made a privacy scan return a result with a [results] field. *)
Lemma scanForPrivacy_success_inv
    (w w' : World) (r : PrivacyScanResult.t) (rep : PrivacyPageScanReport)
    (evs : list Event) :
  scanForPrivacy serializeError d w = (Ok (ActionResult r), w', evs) ->
  PrivacyScanResult.results r = Some rep ->
  exists resp0 p0 resp1 p1 evs1,
    isOpen (session w) = true
    /\ lastNavigationResponse (session w) = Some resp0
    /\ page (session w) = Some p0
    /\ runPrivacyEngine serializeError d
         (scanPageForPrivacy (privacyPageScanner d) (page (session w))) w
       = (Ok (spread rep), w', evs1)
    /\ w' = afterNavigations evs1 w
    /\ reloadsOfPage (page_url p0) evs1
    /\ lastNavigationResponse (session w') = Some resp1
    /\ page (session w') = Some p1
    /\ page_isClosed p1 = page_isClosed p0
    /\ (consentErrors (spread rep) = [] \/ logger d <> None)
    /\ r = privacyScanResult resp0 resp1 (session w') p1 (spread rep)
    /\ evs = EvPrivacyScan :: evs1 ++ privacyLogs d resp1 (session w') p1 (spread rep).
Proof.
  intros Hscan Hres. unfold scanForPrivacy in Hscan.
  destruct (lastBrowserError (session w)) as [e|] eqn:Herr.
  { rewrite (gate_error _ _ _ Herr) in Hscan. discriminate. }
  destruct (isOpen (session w)) eqn:Hopen.
  2: { rewrite (gate_not_ready _ _ Herr Hopen) in Hscan. discriminate. }
  rewrite (gate_open _ _ Hopen) in Hscan.
  destruct (isOpen_true _ Hopen) as (_ & _ & (p0 & Hp0) & (resp0 & H0)).
  destruct (runPrivacyEngine_run serializeError d
              (scanPageForPrivacy (privacyPageScanner d) (page (session w))) w p0 Hp0)
    as (ro & evs1 & Hrun & Hchain).
  destruct (afterNavigations_page evs1 w p0 Hp0) as (p1 & Hp1 & Hclosed).
  destruct ro as [pr|e].
  2: { rewrite (scanPageForCookies_engine_throws _ _ _ _ _ _ H0 Hrun Hp1) in Hscan.
       inversion Hscan; subst. discriminate. }
  destruct (lastNavigationResponse (session (afterNavigations evs1 w)))
    as [resp1|] eqn:H1.
  2: { rewrite (scanPageForCookies_no_response _ _ _ _ _ H0 Hrun H1) in Hscan.
       discriminate. }
  assert (Hlog : (consentErrors pr = [] \/ logger d <> None)
                 \/ (consentErrors pr <> [] /\ logger d = None)).
  { destruct (consentErrors pr); [left; left; reflexivity|].
    destruct (logger d); [left; right; discriminate|right; split; [discriminate|reflexivity]]. }
  destruct Hlog as [Hlog|[He Hlog]].
  2: { rewrite (scanPageForCookies_logger_fault _ _ _ _ _ _ _ H0 Hrun H1 Hp1 He Hlog)
         in Hscan. discriminate. }
  rewrite (scanPageForCookies_returns _ _ _ _ _ _ _ H0 Hrun H1 Hp1 Hlog) in Hscan.
  inversion Hscan; subst. simpl in Hres. inversion Hres; subst. simpl.
  exists resp0, p0, resp1, p1, evs1. repeat split; auto.
Qed.

Lemma scanPageForIssues_engine_throws
    (c : option string) (w : World) (p : PageHandle) (e : JsValue) :
  page (session w) = Some p ->
  axeEngine d w c = AxeThrew e ->
  scanPageForIssues serializeError d c w =
  (Ok (axeEngineFailure serializeError e (page_url p)), w,
   EvAxeAnalyze c :: engineErrorLog serializeError d "Axe core engine error" e (page_url p)).
Proof.
  unfold axeEngine. intros Hp He.
  unfold scanPageForIssues.
  unfold bind at 1 2. unfold this at 1. cbv beta iota.
  unfold tryCatch, bind at 1, emit at 1. rewrite He.
  unfold axeEngineFailure, engineErrorLog, logOptional, pageUrl, bind, this,
    deref, ret, emit, throw.
  destruct (logger d) as [lg|];
    repeat (first [rewrite Hp | progress cbn]); tidy_events; reflexivity.
Qed.

Lemma scanPageForIssues_returns
    (c : option string) (w : World) (p : PageHandle) (b : Browser)
    (resp : HTTPResponse) (ar : AxeResults) :
  page (session w) = Some p ->
  browser (session w) = Some b ->
  lastNavigationResponse (session w) = Some resp ->
  axeEngine d w c = AxeReturned ar ->
  scanPageForIssues serializeError d c w =
  (Ok (axeScanResult d p b resp (session w) ar), w,
   EvAxeAnalyze c
   :: (if diverges resp (requestUrl (session w)) (axe_url ar)
       then redirectWarning d (axe_url ar) else [])).
Proof.
  unfold axeEngine. intros Hp Hb Hr Ha.
  unfold scanPageForIssues.
  unfold bind at 1 2. unfold this at 1. cbv beta iota.
  unfold tryCatch, bind at 1, emit at 1. rewrite Ha.
  unfold axeScanResult, redirected, diverges, redirectWarning, logOptional, bind,
    this, deref, ret, emit.
  cbv beta iota. rewrite Hp, Hb, Hr. cbv beta iota.
  destruct (logger d) as [lg|];
    destruct (0 <? length (redirectChain resp))%nat;
    destruct (requestUrl (session w)) as [u|];
    try destruct (encodeURI u =? axe_url ar)%string;
    cbn; tidy_events; reflexivity.
Qed.

Lemma scanPageForIssues_no_browser
    (c : option string) (w : World) (p : PageHandle) (ar : AxeResults) :
  page (session w) = Some p ->
  browser (session w) = None ->
  axeEngine d w c = AxeReturned ar ->
  scanPageForIssues serializeError d c w =
  (Throw (typeError "version"), w, [EvAxeAnalyze c]).
Proof.
  unfold axeEngine. intros Hp Hb Ha.
  unfold scanPageForIssues.
  unfold bind at 1 2. unfold this at 1. cbv beta iota.
  unfold tryCatch, bind at 1, emit at 1. rewrite Ha.
  unfold bind, this, deref, ret, throw. cbv beta iota. rewrite Hp, Hb. reflexivity.
Qed.

(** Whatever made an accessibility scan return a result with a [results]
    field. *)
Lemma scanForA11yIssues_success_inv
    (c : option string) (w w' : World) (r : AxeScanResults.t) (ar : AxeResults)
    (evs : list Event) :
  scanForA11yIssues serializeError d c w = (Ok (ActionResult r), w', evs) ->
  AxeScanResults.results r = Some ar ->
  exists p b resp,
    isOpen (session w) = true
    /\ w' = w
    /\ page (session w) = Some p
    /\ browser (session w) = Some b
    /\ lastNavigationResponse (session w) = Some resp
    /\ axeEngine d w c = AxeReturned ar
    /\ r = axeScanResult d p b resp (session w) ar
    /\ evs = EvAxeAnalyze c
             :: (if diverges resp (requestUrl (session w)) (axe_url ar)
                 then redirectWarning d (axe_url ar) else []).
Proof.
  intros Hscan Hres. unfold scanForA11yIssues in Hscan.
  destruct (lastBrowserError (session w)) as [e|] eqn:Herr.
  { rewrite (gate_error _ _ _ Herr) in Hscan. discriminate. }
  destruct (isOpen (session w)) eqn:Hopen.
  2: { rewrite (gate_not_ready _ _ Herr Hopen) in Hscan. discriminate. }
  rewrite (gate_open _ _ Hopen) in Hscan.
  destruct (isOpen_true _ Hopen) as (_ & _ & (p & Hp) & (resp & Hr)).
  destruct (axeEngine d w c) as [ar'|e] eqn:Ha.
  2: { rewrite (scanPageForIssues_engine_throws _ _ _ _ Hp Ha) in Hscan.
       inversion Hscan; subst. discriminate. }
  destruct (browser (session w)) as [b|] eqn:Hb.
  2: { rewrite (scanPageForIssues_no_browser _ _ _ _ Hp Hb Ha) in Hscan.
       discriminate. }
  rewrite (scanPageForIssues_returns _ _ _ _ _ _ Hp Hb Hr Ha) in Hscan.
  inversion Hscan; subst. simpl in Hres. inversion Hres; subst.
  exists p, b, resp. repeat split; auto.
Qed.

End Scans.

(** ** Aggregating the sub-result errors *)

Lemma consentErrors_first (pr : PrivacyResults) :
  hd None (consentErrors pr) = firstConsentError (cookieCollectionConsentResults pr).
Proof.
  unfold consentErrors.
  induction (cookieCollectionConsentResults pr) as [|c l IH]; simpl; [reflexivity|].
  destruct (consent_error c) eqn:Hc; simpl; [exact Hc|exact IH].
Qed.

Lemma consentErrors_all (pr : PrivacyResults) (e : JsValue) :
  In (Some e) (consentErrors pr) <->
  exists c, In c (cookieCollectionConsentResults pr) /\ consent_error c = Some e.
Proof.
  unfold consentErrors. rewrite in_map_iff. split.
  - intros (c & Hc & Hin). apply filter_In in Hin. exists c. tauto.
  - intros (c & Hin & Hc). exists c. split; [exact Hc|].
    apply filter_In. split; [exact Hin|]. rewrite Hc. reflexivity.
Qed.

Lemma consentErrors_none (pr : PrivacyResults) :
  firstConsentError (cookieCollectionConsentResults pr) = None <-> consentErrors pr = [].
Proof.
  unfold consentErrors.
  induction (cookieCollectionConsentResults pr) as [|c l IH]; simpl; [tauto|].
  destruct (consent_error c); simpl; [split; discriminate|exact IH].
Qed.

Lemma privacyLogs_logs (d : Deps) (resp1 : HTTPResponse) (s1 : Session)
    (p1 : PageHandle) (pr : PrivacyResults) :
  Forall isLog (privacyLogs d resp1 s1 p1 pr).
Proof.
  unfold privacyLogs, redirectWarning. apply Forall_app. split.
  - destruct (diverges _ _ _); [|constructor].
    destruct (logger d); repeat constructor.
  - destruct (isEmpty _); repeat constructor.
Qed.

Lemma lastNavigation_scan (evs1 logs : list Event) :
  Forall isLog logs ->
  lastNavigation (EvPrivacyScan :: evs1 ++ logs) = lastNavigation evs1.
Proof.
  intro H. simpl. rewrite lastNavigation_app, (logs_lastNavigation _ H).
  destruct (lastNavigation evs1); reflexivity.
Qed.

Lemma reloadsOfPage_scan (evs1 logs : list Event) (current : string) :
  Forall isLog logs ->
  reloadsOfPage current evs1 ->
  reloadsOfPage current (EvPrivacyScan :: evs1 ++ logs).
Proof.
  intros H H1. simpl. apply reloadsOfPage_app; [exact H1|].
  rewrite <- (app_nil_r logs). apply logs_reloadsOfPage; [exact H|exact I].
Qed.

(** ** The gate *)

(** C2. When a browser error is recorded, both scan methods return the
    failure carrying exactly that error and its status code, leave the
    session as it was, and emit no event at all: neither engine is invoked.
    Such a session is never open, so the recorded error wins over the
    not-ready fault. *)
Theorem recorded_error_short_circuits
    (ser : JsValue -> string) (d : Deps) (w : World) (e : BrowserError) :
  lastBrowserError (session w) = Some e ->
  isOpen (session w) = false
  /\ (forall c,
        scanForA11yIssues ser d c w = (Ok (NavigationFailed e (statusCode e)), w, []))
  /\ scanForPrivacy ser d w = (Ok (NavigationFailed e (statusCode e)), w, []).
Proof.
  intro H. split; [|split].
  - unfold isOpen. rewrite H. simpl.
    rewrite andb_false_r. reflexivity.
  - intro c. apply gate_error. exact H.
  - apply gate_error. exact H.
Qed.

Lemma recorded_error_short_circuits_witness :
  let d := Scenarios.failing (Some globalLogger) in
  let w := Doubles.opened d "http://a.test/missing" in
  lastBrowserError (session w) = Some Doubles.notFound
  /\ scanForPrivacy Doubles.serializeError d w
     = (Ok (NavigationFailed Doubles.notFound (Some 404%Z)), w, []).
Proof.
  split; [reflexivity|].
  apply (recorded_error_short_circuits Doubles.serializeError
           (Scenarios.failing (Some globalLogger))
           (Doubles.opened (Scenarios.failing (Some globalLogger)) "http://a.test/missing")
           Doubles.notFound).
  reflexivity.
Defined.

(** C8. With no browser error recorded and [isOpen()] false (no page, a
    closed page, or no navigation response), both scan methods raise the
    not-ready error instead of returning a result. *)
Theorem scan_before_ready_faults
    (ser : JsValue -> string) (d : Deps) (w : World) :
  lastBrowserError (session w) = None ->
  isOpen (session w) = false ->
  (forall c, scanForA11yIssues ser d c w = (Throw notReadyError, w, []))
  /\ scanForPrivacy ser d w = (Throw notReadyError, w, []).
Proof.
  intros He Ho. split; [intro c|]; apply gate_not_ready; assumption.
Qed.

Lemma scan_before_ready_faults_witness :
  let d := Scenarios.plain None in
  (scanForPrivacy Doubles.serializeError d newWorld = (Throw notReadyError, newWorld, []))
  /\ (scanForA11yIssues Doubles.serializeError d None (Scenarios.closedAgain d)
      = (Throw notReadyError, Scenarios.closedAgain d, [])).
Proof.
  split.
  - apply (scan_before_ready_faults Doubles.serializeError
             (Scenarios.plain None) newWorld); reflexivity.
  - apply (scan_before_ready_faults Doubles.serializeError
             (Scenarios.plain None)
             (Scenarios.closedAgain (Scenarios.plain None))); reflexivity.
Defined.

(** ** Closing *)

(** C9. [close()] never faults; a second [close()] changes nothing and
    releases nothing; when the driver holds no browser (the session was never
    created) [close()] changes nothing either; and a browser is released only
    if the driver was holding it. *)
Theorem close_idempotent (d : Deps) (w : World) :
  exists w1 evs1,
    close d w = (Ok tt, w1, evs1)
    /\ close d w1 = (Ok tt, w1, [])
    /\ (driverBrowser w = None -> w1 = w /\ evs1 = [])
    /\ (forall b, In (EvBrowserReleased b) evs1 -> driverBrowser w = Some b).
Proof.
  unfold close. destruct (webDriver d) as [wd|].
  - unfold webDriver_close. destruct (driverBrowser w) as [b|] eqn:Hb.
    + eexists; eexists. split; [reflexivity|]. simpl. split; [reflexivity|].
      split; [discriminate|].
      intros b' [Hin|[]]. inversion Hin; subst. reflexivity.
    + exists w, []. rewrite Hb. repeat split; auto. intros b [].
  - exists w, []. unfold ret. repeat split; auto. intros b [].
Qed.

(** On a fresh page object, after a failed [create()], and a second time
    after a session was opened and closed. *)
Lemma close_idempotent_witness :
  close (Scenarios.plain None) newWorld = (Ok tt, newWorld, [])
  /\ close Scenarios.unlaunchable Scenarios.failedToCreate
     = (Ok tt, Scenarios.failedToCreate, [])
  /\ close (Scenarios.plain None) (Scenarios.closedAgain (Scenarios.plain None))
     = (Ok tt, Scenarios.closedAgain (Scenarios.plain None), []).
Proof.
  split; [|split].
  - destruct (close_idempotent (Scenarios.plain None) newWorld)
      as (w1 & evs1 & H1 & _ & H3 & _).
    destruct (H3 eq_refl) as [Hw He]. rewrite H1, Hw, He. reflexivity.
  - destruct (close_idempotent Scenarios.unlaunchable Scenarios.failedToCreate)
      as (w1 & evs1 & H1 & _ & H3 & _).
    destruct (H3 eq_refl) as [Hw He]. rewrite H1, Hw, He. reflexivity.
  - destruct (close_idempotent (Scenarios.plain None)
                (Doubles.opened (Scenarios.plain None) Scenarios.url))
      as (w1 & evs1 & H1 & H2 & _).
    unfold Scenarios.closedAgain. rewrite H1. exact H2.
Defined.

(** ** Engine faults *)

(** C7. On an open session, a fault of either engine is caught and turned
    into a returned failure result: its [error] is the engine's name followed
    by the serialized fault, its [scannedUrl] is the page's URL at that time,
    and the fault is logged with that URL when a logger is there.  Nothing is
    thrown to the caller. *)
Theorem engine_fault_converted
    (ser : JsValue -> string) (d : Deps) (w : World) :
  isOpen (session w) = true ->
  (forall c e,
      axeEngine d w c = AxeThrew e ->
      exists p,
        page (session w) = Some p
        /\ scanForA11yIssues ser d c w =
           (Ok (ActionResult
                  (AxeScanResults.mk None None None None None None
                     (Some (page_url p))
                     (Some (JsStr ("Axe core engine error. " ++ ser e)%string)))),
            w,
            EvAxeAnalyze c :: engineErrorLog ser d "Axe core engine error" e (page_url p)))
  /\ (forall e w1 evs1,
        runPrivacyEngine ser d
          (scanPageForPrivacy (privacyPageScanner d) (page (session w))) w
        = (Throw e, w1, evs1) ->
        exists p1,
          page (session w1) = Some p1
          /\ scanForPrivacy ser d w =
             (Ok (ActionResult
                    (PrivacyScanResult.mk None None
                       (Some (page_url p1))
                       (Some (JsStr ("Privacy scan engine error. " ++ ser e)%string)))),
              w1,
              EvPrivacyScan
              :: evs1 ++ engineErrorLog ser d "Privacy scan engine error" e (page_url p1))).
Proof.
  intro Hopen.
  destruct (isOpen_true _ Hopen) as (_ & _ & (p & Hp) & (resp & Hr)).
  split.
  - intros c e He. exists p. split; [exact Hp|].
    unfold scanForA11yIssues. rewrite (gate_open _ _ Hopen).
    rewrite (scanPageForIssues_engine_throws ser d c w p e Hp He). reflexivity.
  - intros e w1 evs1 Hrun.
    destruct (runPrivacyEngine_run ser d
                (scanPageForPrivacy (privacyPageScanner d) (page (session w))) w p Hp)
      as (ro & evs & Hrun' & _).
    rewrite Hrun in Hrun'. inversion Hrun'; subst.
    destruct (afterNavigations_page evs w p Hp) as (p1 & Hp1 & _).
    exists p1. split; [exact Hp1|].
    unfold scanForPrivacy. rewrite (gate_open _ _ Hopen).
    rewrite (scanPageForCookies_engine_throws ser d _ _ _ _ _ _ Hr Hrun Hp1). reflexivity.
Qed.

Lemma engine_fault_converted_witness :
  let d := Scenarios.throwing (Some globalLogger) in
  let w := Doubles.opened d Scenarios.url in
  exists r evs,
    scanForPrivacy Doubles.serializeError d w = (Ok (ActionResult r), w, evs)
    /\ PrivacyScanResult.error r
       = Some (JsStr "Privacy scan engine error. Error: engine crashed")
    /\ PrivacyScanResult.scannedUrl r = Some Scenarios.url.
Proof.
  cbv zeta.
  destruct (proj2 (engine_fault_converted Doubles.serializeError
                     (Scenarios.throwing (Some globalLogger))
                     (Doubles.opened (Scenarios.throwing (Some globalLogger)) Scenarios.url)
                     eq_refl)
                  Scenarios.boom _ _ eq_refl) as (p1 & Hp1 & Hscan).
  inversion Hp1; subst p1.
  eexists; eexists. split; [exact Hscan|]. split; reflexivity.
Defined.

(** C3. Without a logger, a privacy scan that gets through the gate, whose
    engine returns sub-results carrying an error, does not return: the call
    [this.logger.logError] on the missing logger raises a TypeError. *)
Theorem absent_logger_faults_on_consent_errors
    (ser : JsValue -> string) (d : Deps) (w w1 : World) (pr : PrivacyResults)
    (resp1 : HTTPResponse) (evs1 : list Event) :
  logger d = None ->
  isOpen (session w) = true ->
  runPrivacyEngine ser d
    (scanPageForPrivacy (privacyPageScanner d) (page (session w))) w = (Ok pr, w1, evs1) ->
  lastNavigationResponse (session w1) = Some resp1 ->
  consentErrors pr <> [] ->
  scanForPrivacy ser d w = (Throw (typeError "logError"), w1, EvPrivacyScan :: evs1).
Proof.
  intros Hlog Hopen Hrun H1 He.
  destruct (isOpen_true _ Hopen) as (_ & _ & (p & Hp) & (resp & Hr)).
  destruct (runPrivacyEngine_run ser d
              (scanPageForPrivacy (privacyPageScanner d) (page (session w))) w p Hp)
    as (ro & evs & Hrun' & _).
  rewrite Hrun in Hrun'. inversion Hrun'; subst.
  destruct (afterNavigations_page evs w p Hp) as (p1 & Hp1 & _).
  unfold scanForPrivacy. rewrite (gate_open _ _ Hopen).
  rewrite (scanPageForCookies_logger_fault ser d _ _ _ _ _ _ _ Hr Hrun H1 Hp1 He Hlog).
  reflexivity.
Qed.

Lemma absent_logger_faults_on_consent_errors_witness :
  scanForPrivacy Doubles.serializeError
    (Scenarios.consent [Some (JsStr "E1")] None)
    (Doubles.opened
       (Scenarios.consent [Some (JsStr "E1")] None)
       Scenarios.url)
  = (Throw (typeError "logError"),
     Doubles.opened
       (Scenarios.consent [Some (JsStr "E1")] None)
       Scenarios.url,
     [EvPrivacyScan]).
Proof.
  apply (absent_logger_faults_on_consent_errors Doubles.serializeError
           (Scenarios.consent [Some (JsStr "E1")] None)
           _ _ (Scenarios.found [Some (JsStr "E1")]) (Doubles.okResponse 200) []).
  - reflexivity.
  - reflexivity.
  - reflexivity.
  - reflexivity.
  - discriminate.
Defined.

(** ** The privacy scan's result *)

(** C4. The [httpStatusCode] and the [pageResponseCode] of a privacy scan's
    result are the status of the navigation response as it was when the scan
    started, whatever the reloads during the scan brought. *)
Theorem privacy_status_is_pre_reload
    (ser : JsValue -> string) (d : Deps) (w w' : World) (resp0 : HTTPResponse)
    (r : PrivacyScanResult.t) (rep : PrivacyPageScanReport) (evs : list Event) :
  lastNavigationResponse (session w) = Some resp0 ->
  scanForPrivacy ser d w = (Ok (ActionResult r), w', evs) ->
  PrivacyScanResult.results r = Some rep ->
  httpStatusCode rep = status resp0
  /\ PrivacyScanResult.pageResponseCode r = Some (status resp0).
Proof.
  intros H0 Hscan Hres.
  destruct (scanForPrivacy_success_inv ser d w w' r rep evs Hscan Hres)
    as (resp0' & p0 & resp1 & p1 & evs1 & _ & H0' & _ & _ & _ & _ & _ & _ & _ & _ & Hr & _).
  rewrite H0 in H0'. inversion H0'; subst resp0'.
  rewrite Hr in Hres. simpl in Hres. injection Hres as Hrep.
  apply (f_equal httpStatusCode) in Hrep. simpl in Hrep.
  rewrite Hr. split; [symmetry; exact Hrep|reflexivity].
Qed.

(** The reload answers 202 where the first navigation answered 200. *)
Lemma privacy_status_is_pre_reload_witness :
  exists r rep w' evs,
    scanForPrivacy Doubles.serializeError
      (Scenarios.reloading (Doubles.arrives 202 Scenarios.url) [] None)
      (Doubles.opened (Scenarios.reloading (Doubles.arrives 202 Scenarios.url) [] None)
         Scenarios.url)
    = (Ok (ActionResult r), w', evs)
    /\ option_map status (lastNavigationResponse (session w')) = Some 202%Z
    /\ countNavigations evs = 1
    /\ PrivacyScanResult.results r = Some rep
    /\ httpStatusCode rep = 200%Z
    /\ PrivacyScanResult.pageResponseCode r = Some 200%Z.
Proof.
  do 4 eexists.
  split; [vm_compute; reflexivity|].
  split; [reflexivity|]. split; [reflexivity|]. split; [reflexivity|].
  eapply (privacy_status_is_pre_reload Doubles.serializeError
            (Scenarios.reloading (Doubles.arrives 202 Scenarios.url) [] None)
            (Doubles.opened (Scenarios.reloading (Doubles.arrives 202 Scenarios.url) [] None)
               Scenarios.url))
    with (resp0 := Doubles.okResponse 200).
  - reflexivity.
  - vm_compute. reflexivity.
  - reflexivity.
Defined.

(** C10. The [seedUri] of a privacy scan's result is [requestUrl] as it
    stands when the result is built: the URL of the last reload if the engine
    reloaded, the URL requested before the scan if it did not; and every
    reload went to the URL the page was showing when it was asked for. *)
Theorem seedUri_follows_reload
    (ser : JsValue -> string) (d : Deps) (w w' : World)
    (r : PrivacyScanResult.t) (rep : PrivacyPageScanReport) (evs : list Event) :
  scanForPrivacy ser d w = (Ok (ActionResult r), w', evs) ->
  PrivacyScanResult.results r = Some rep ->
  seedUri rep = requestUrl (session w')
  /\ seedUri rep = match lastNavigation evs with
                   | Some (url, _) => Some url
                   | None => requestUrl (session w)
                   end
  /\ (forall p, page (session w) = Some p -> reloadsOfPage (page_url p) evs).
Proof.
  intros Hscan Hres.
  destruct (scanForPrivacy_success_inv ser d w w' r rep evs Hscan Hres)
    as (resp0 & p0 & resp1 & p1 & evs1 & _ & _ & Hp0 & _ & Hw' & Hchain & _ & _ & _ & _
        & Hr & Hevs).
  rewrite Hr in Hres. simpl in Hres. injection Hres as Hrep.
  apply (f_equal seedUri) in Hrep. simpl in Hrep.
  rewrite <- Hrep. split; [reflexivity|]. split.
  - rewrite Hevs, (lastNavigation_scan _ _ (privacyLogs_logs _ _ _ _ _)).
    rewrite Hw'. unfold afterNavigations. simpl.
    destruct (lastNavigation evs1) as [[u o]|]; reflexivity.
  - intros p Hp. rewrite Hp0 in Hp. inversion Hp; subst p.
    rewrite Hevs. apply reloadsOfPage_scan; [apply privacyLogs_logs|exact Hchain].
Qed.

(** The first navigation is redirected to [/landing]; the reload goes there. *)
Lemma seedUri_follows_reload_witness :
  exists r rep w' evs,
    scanForPrivacy Doubles.serializeError
      Scenarios.redirectedThenReload
      (Doubles.opened Scenarios.redirectedThenReload Scenarios.url)
    = (Ok (ActionResult r), w', evs)
    /\ PrivacyScanResult.results r = Some rep
    /\ seedUri rep = Some Scenarios.landing.
Proof.
  eassert (Hscan : scanForPrivacy Doubles.serializeError
                     Scenarios.redirectedThenReload
                     (Doubles.opened Scenarios.redirectedThenReload Scenarios.url)
                   = (Ok (ActionResult _), _, _)) by (vm_compute; reflexivity).
  destruct (seedUri_follows_reload _ _ _ _ _ _ _ Hscan eq_refl) as (_ & Hseed & _).
  do 4 eexists. split; [exact Hscan|]. split; [reflexivity|exact Hseed].
Defined.

(** C5. In the result of a privacy scan the [error] field is the first
    error among the engine's sub-results, in list order, and is unset when no
    sub-result carries one; when some do, one log entry lists every one of
    them.  With a logger, an open session whose engine returns and leaves a
    navigation response does produce that result. *)
Theorem first_consent_error_surfaced
    (ser : JsValue -> string) (d : Deps) (w : World) :
  (forall w' r rep evs,
      scanForPrivacy ser d w = (Ok (ActionResult r), w', evs) ->
      PrivacyScanResult.results r = Some rep ->
      PrivacyScanResult.error r
      = firstConsentError (cookieCollectionConsentResults (spread rep))
      /\ (firstConsentError (cookieCollectionConsentResults (spread rep)) <> None ->
          (exists url, In (consentErrorLog url (consentErrors (spread rep))) evs)
          /\ (forall c e,
                 In c (cookieCollectionConsentResults (spread rep)) ->
                 consent_error c = Some e ->
                 In (Some e) (consentErrors (spread rep)))))
  /\ (forall lg w1 pr resp1 evs1,
        logger d = Some lg ->
        isOpen (session w) = true ->
        runPrivacyEngine ser d
          (scanPageForPrivacy (privacyPageScanner d) (page (session w))) w
        = (Ok pr, w1, evs1) ->
        lastNavigationResponse (session w1) = Some resp1 ->
        exists r evs,
          scanForPrivacy ser d w = (Ok (ActionResult r), w1, evs)
          /\ option_map spread (PrivacyScanResult.results r) = Some pr
          /\ PrivacyScanResult.error r
             = firstConsentError (cookieCollectionConsentResults pr)).
Proof.
  split.
  - intros w' r rep evs Hscan Hres.
    destruct (scanForPrivacy_success_inv ser d w w' r rep evs Hscan Hres)
      as (resp0 & p0 & resp1 & p1 & evs1 & _ & _ & _ & _ & _ & _ & _ & _ & _ & _
          & Hr & Hevs).
    split.
    + rewrite Hr. simpl. apply consentErrors_first.
    + intro Hsome. split.
      * exists (page_url p1). rewrite Hevs. right. apply in_or_app. right.
        unfold privacyLogs. apply in_or_app. right.
        destruct (consentErrors (spread rep)) eqn:He.
        -- apply consentErrors_none in He. contradiction.
        -- left. reflexivity.
      * intros c e Hin Hc. apply consentErrors_all. exists c. split; assumption.
  - intros lg w1 pr resp1 evs1 Hlg Hopen Hrun H1.
    destruct (isOpen_true _ Hopen) as (_ & _ & (p & Hp) & (resp & Hr)).
    destruct (runPrivacyEngine_run ser d
                (scanPageForPrivacy (privacyPageScanner d) (page (session w))) w p Hp)
      as (ro & evs & Hrun' & _).
    rewrite Hrun in Hrun'. inversion Hrun'; subst.
    destruct (afterNavigations_page evs w p Hp) as (p1 & Hp1 & _).
    assert (Hlog : consentErrors pr = [] \/ logger d <> None)
      by (right; rewrite Hlg; discriminate).
    eexists; eexists. split.
    + unfold scanForPrivacy. rewrite (gate_open _ _ Hopen).
      rewrite (scanPageForCookies_returns ser d _ _ _ _ _ _ _ Hr Hrun H1 Hp1 Hlog).
      reflexivity.
    + split; [reflexivity|]. simpl. apply consentErrors_first.
Qed.

(** Two sub-results with errors E1 and E2, around one without. *)
Lemma first_consent_error_surfaced_witness :
  exists r evs w1,
    scanForPrivacy Doubles.serializeError
      (Scenarios.consent [Some (JsStr "E1"); None; Some (JsStr "E2")] (Some globalLogger))
      (Doubles.opened
         (Scenarios.consent [Some (JsStr "E1"); None; Some (JsStr "E2")] (Some globalLogger))
         Scenarios.url)
    = (Ok (ActionResult r), w1, evs)
    /\ PrivacyScanResult.error r = Some (JsStr "E1")
    /\ In (consentErrorLog Scenarios.url [Some (JsStr "E1"); Some (JsStr "E2")]) evs.
Proof.
  destruct (proj2 (first_consent_error_surfaced Doubles.serializeError
             (Scenarios.consent [Some (JsStr "E1"); None; Some (JsStr "E2")] (Some globalLogger))
             (Doubles.opened
                (Scenarios.consent [Some (JsStr "E1"); None; Some (JsStr "E2")] (Some globalLogger))
                Scenarios.url))
             globalLogger _ _ (Doubles.okResponse 200) _ eq_refl eq_refl eq_refl eq_refl)
    as (r & evs & Hscan & _ & Herr).
  exists r, evs. eexists. split; [exact Hscan|]. split; [exact Herr|].
  vm_compute in Hscan. inversion Hscan. right. left. reflexivity.
Defined.

(** ** Session state behind a success result *)

(** C1, as stated, fails: the engine reloads, the reload hands a 404 to the
    error callback and returns a response, and the scan still returns a
    result with a [results] field. *)
Lemma success_with_recorded_reload_error : ~ success_only_when_navigation_succeeded.
Proof.
  intro H.
  destruct (H Doubles.serializeError
              Scenarios.reloadError
              (Doubles.opened Scenarios.reloadError Scenarios.url)
              _ _ _ _ eq_refl eq_refl) as (Herr & _).
  discriminate Herr.
Qed.

(** C1, amended.  A scan that returns a result with a [results] field was
    entered on an open session.  For an accessibility scan the session is
    untouched, so it is still open.  For a privacy scan the navigation
    response is still set and the page still open when the result is built,
    and [lastBrowserError] is whatever the last reload recorded: unset if the
    engine did not reload or the last reload reported no error. *)
Theorem success_result_session_state
    (ser : JsValue -> string) (d : Deps) (w w' : World) (evs : list Event) :
  (forall c r ar,
      scanForA11yIssues ser d c w = (Ok (ActionResult r), w', evs) ->
      AxeScanResults.results r = Some ar ->
      isOpen (session w) = true /\ isOpen (session w') = true)
  /\ (forall r rep,
        scanForPrivacy ser d w = (Ok (ActionResult r), w', evs) ->
        PrivacyScanResult.results r = Some rep ->
        isOpen (session w) = true
        /\ lastNavigationResponse (session w') <> None
        /\ pageOpen (session w') = true
        /\ lastBrowserError (session w')
           = match lastNavigation evs with
             | Some (_, o) => lastRecorded (nav_errors o) None
             | None => None
             end).
Proof.
  split.
  - intros c r ar Hscan Hres.
    destruct (scanForA11yIssues_success_inv ser d c w w' r ar evs Hscan Hres)
      as (p & b & resp & Hopen & Hw & _).
    subst w'. split; exact Hopen.
  - intros r rep Hscan Hres.
    destruct (scanForPrivacy_success_inv ser d w w' r rep evs Hscan Hres)
      as (resp0 & p0 & resp1 & p1 & evs1 & Hopen & _ & Hp0 & _ & Hw' & _ & H1 & Hp1
          & Hclosed & _ & _ & Hevs).
    destruct (isOpen_true _ Hopen) as (Herr & Hpo & _).
    split; [exact Hopen|]. split; [rewrite H1; discriminate|]. split.
    + unfold pageOpen in *. rewrite Hp1, Hclosed. rewrite Hp0 in Hpo. exact Hpo.
    + rewrite Hevs, (lastNavigation_scan _ _ (privacyLogs_logs _ _ _ _ _)).
      rewrite Hw'. unfold afterNavigations. simpl.
      destruct (lastNavigation evs1) as [[u o]|]; [reflexivity|exact Herr].
Qed.

Lemma success_result_session_state_witness :
  exists r rep w' evs,
    scanForPrivacy Doubles.serializeError
      Scenarios.reloadError
      (Doubles.opened Scenarios.reloadError Scenarios.url)
    = (Ok (ActionResult r), w', evs)
    /\ PrivacyScanResult.results r = Some rep
    /\ pageOpen (session w') = true
    /\ lastBrowserError (session w') = Some Doubles.notFound.
Proof.
  eassert (Hscan : scanForPrivacy Doubles.serializeError
                     Scenarios.reloadError
                     (Doubles.opened Scenarios.reloadError Scenarios.url)
                   = (Ok (ActionResult _), _, _)) by (vm_compute; reflexivity).
  destruct (proj2 (success_result_session_state _ _ _ _ _) _ _ Hscan eq_refl)
    as (_ & _ & Hpage & Herr).
  do 4 eexists. split; [exact Hscan|]. split; [reflexivity|].
  split; [exact Hpage|exact Herr].
Defined.

(** ** [scannedUrl] *)

(** C6, as stated, fails: after an engine fault the failure result carries
    [scannedUrl] although nothing was redirected and the URLs agree. *)
Lemma scannedUrl_set_on_engine_failure : ~ scannedUrl_iff_diverges_on_every_result.
Proof.
  intro H.
  destruct (H Doubles.serializeError (Scenarios.throwing None)
              (Doubles.opened (Scenarios.throwing None) Scenarios.url)
              _ _ _ _ _ eq_refl eq_refl eq_refl) as (Hto & _).
  assert (Hd : false = true) by (apply Hto; discriminate).
  discriminate Hd.
Qed.

(** C6, amended.  In a result with a [results] field, [scannedUrl] is set
    exactly when the redirect chain of the navigation response is not empty
    or a requested URL is recorded whose percent-encoding differs from the
    observed URL, and it is then the observed URL: the one the engine reports
    for an accessibility scan, the page's for a privacy scan. *)
Theorem scannedUrl_on_success
    (ser : JsValue -> string) (d : Deps) (w w' : World) (evs : list Event) :
  (forall c r ar,
      scanForA11yIssues ser d c w = (Ok (ActionResult r), w', evs) ->
      AxeScanResults.results r = Some ar ->
      exists resp,
        lastNavigationResponse (session w') = Some resp
        /\ AxeScanResults.scannedUrl r
           = if diverges resp (requestUrl (session w')) (axe_url ar)
             then Some (axe_url ar) else None)
  /\ (forall r rep,
        scanForPrivacy ser d w = (Ok (ActionResult r), w', evs) ->
        PrivacyScanResult.results r = Some rep ->
        exists resp p,
          lastNavigationResponse (session w') = Some resp
          /\ page (session w') = Some p
          /\ PrivacyScanResult.scannedUrl r
             = if diverges resp (requestUrl (session w')) (page_url p)
               then Some (page_url p) else None).
Proof.
  split.
  - intros c r ar Hscan Hres.
    destruct (scanForA11yIssues_success_inv ser d c w w' r ar evs Hscan Hres)
      as (p & b & resp & _ & Hw & _ & _ & Hr & _ & Hres' & _).
    subst w'. exists resp. split; [exact Hr|]. rewrite Hres'. reflexivity.
  - intros r rep Hscan Hres.
    destruct (scanForPrivacy_success_inv ser d w w' r rep evs Hscan Hres)
      as (resp0 & p0 & resp1 & p1 & evs1 & _ & _ & _ & _ & _ & _ & H1 & Hp1 & _ & _
          & Hr & _).
    exists resp1, p1. split; [exact H1|]. split; [exact Hp1|]. rewrite Hr. reflexivity.
Qed.

(** No redirect and the same URL: no [scannedUrl]. *)
Lemma scannedUrl_on_success_witness :
  exists r ar w' evs,
    scanForA11yIssues Doubles.serializeError
      (Scenarios.plain None)
      None
      (Doubles.opened (Scenarios.plain None) Scenarios.url)
    = (Ok (ActionResult r), w', evs)
    /\ AxeScanResults.results r = Some ar
    /\ AxeScanResults.pageResponseCode r = Some 200%Z
    /\ AxeScanResults.scannedUrl r = None.
Proof.
  eassert (Hscan : scanForA11yIssues Doubles.serializeError
                     (Scenarios.plain None)
                     None
                     (Doubles.opened (Scenarios.plain None) Scenarios.url)
                   = (Ok (ActionResult _), _, _)) by (vm_compute; reflexivity).
  destruct (proj1 (scannedUrl_on_success _ _ _ _ _) _ _ _ Hscan eq_refl)
    as (resp & Hresp & Hurl).
  do 4 eexists. split; [exact Hscan|]. split; [reflexivity|]. split; [reflexivity|].
  injection Hresp as Hresp. subst resp. exact Hurl.
Defined.

(** ** Navigation *)

Lemma last_default {A} (l : list A) (a b c : A) : last (a :: l) b = last (a :: l) c.
Proof.
  revert a. induction l as [|x l IH]; intro a; [reflexivity|].
  change (last (x :: l) b = last (x :: l) c). apply IH.
Qed.

Lemma lastRecorded_last (errs : list BrowserError) (prior : option BrowserError) :
  lastRecorded errs prior = last (map Some errs) prior.
Proof.
  unfold lastRecorded. revert prior.
  induction errs as [|e errs IH]; intro prior; [reflexivity|].
  simpl fold_left. rewrite IH.
  destruct errs as [|e' errs]; [reflexivity|].
  simpl map. change (last (Some e :: Some e' :: map Some errs) prior)
    with (last (Some e' :: map Some errs) prior).
  apply last_default.
Qed.

Lemma last_some_isNil {A} (l : list A) :
  isNil (last (map Some l) None) = isEmpty l.
Proof.
  destruct l as [|a l]; [reflexivity|]. simpl isEmpty.
  revert a. induction l as [|x l IH]; intro a; [reflexivity|].
  change (isNil (last (map Some (x :: l)) None) = false). apply IH.
Qed.


(** After [navigateToUrl] the session is open exactly when the page was
    open, the navigator reported no error and it returned a response; what
    was recorded before plays no part. *)
Theorem navigateToUrl_isOpen
    (ser : JsValue -> string) (d : Deps) (url : string) (w w' : World)
    (r : Outcome unit) (evs : list Event) :
  navigateToUrl ser d url w = (r, w', evs) ->
  isOpen (session w')
  = pageOpen (session w)
    && isEmpty (nav_errors (navigate (pageNavigator d) (navCount w) url (page (session w))))
    && negb (isNil (nav_response
                      (navigate (pageNavigator d) (navCount w) url (page (session w))))).
Proof.
  intro H. pose proof (navigateToUrl_run ser d url w) as Hr. cbv zeta in Hr.
  rewrite Hr in H. inversion H; subst. clear H.
  unfold isOpen, pageOpen, settled. simpl. rewrite lastRecorded_last, last_some_isNil.
  destruct (page (session w)) as [p|]; reflexivity.
Qed.

(** A failed navigation followed by one that arrives: the session is open. *)
Lemma navigateToUrl_isOpen_witness :
  lastBrowserError
    (session (Doubles.opened MoreScenarios.recovers Scenarios.url))
  = Some Doubles.notFound
  /\ exists w' evs,
       navigateToUrl Doubles.serializeError MoreScenarios.recovers Scenarios.url
         (Doubles.opened MoreScenarios.recovers Scenarios.url)
       = (Ok tt, w', evs)
       /\ isOpen (session w') = true.
Proof.
  split; [reflexivity|].
  eassert (Hnav : navigateToUrl Doubles.serializeError MoreScenarios.recovers Scenarios.url
                    (Doubles.opened MoreScenarios.recovers Scenarios.url)
                  = (Ok tt, _, _)) by (vm_compute; reflexivity).
  do 2 eexists. split; [exact Hnav|].
  rewrite (navigateToUrl_isOpen _ _ _ _ _ _ _ Hnav). reflexivity.
Defined.

(** The answer the privacy engine gets from the reload callback: [success]
    is true only if the navigator returned a response and that response is
    ok; [error] is the last browser error the reload recorded, unset if it
    recorded none.  The reload asked for the URL the page was showing. *)
Theorem reloadPageFunc_answer
    (ser : JsValue -> string) (d : Deps) (w : World) (p : PageHandle) :
  page (session w) = Some p ->
  exists w' evs,
    reloadPageFunc ser d w
    = (Ok (mkReload
             match nav_response
                     (navigate (pageNavigator d) (navCount w) (page_url p) (Some p)) with
             | Some resp => ok resp
             | None => false
             end
             (last (map Some
                      (nav_errors
                         (navigate (pageNavigator d) (navCount w) (page_url p) (Some p))))
                   None)),
       w', evs)
    /\ requestUrl (session w') = Some (page_url p)
    /\ lastNavigation evs
       = Some (page_url p, navigate (pageNavigator d) (navCount w) (page_url p) (Some p)).
Proof.
  intro Hp. pose proof (reloadPageFunc_run ser d w p Hp) as H. cbv zeta in H.
  rewrite lastRecorded_last in H.
  do 2 eexists. split; [exact H|].
  assert (Hl : lastNavigation
                 (EvNavigate (page_url p)
                    (navigate (pageNavigator d) (navCount w) (page_url p) (Some p))
                  :: navigationErrorLogs ser d
                       (nav_errors
                          (navigate (pageNavigator d) (navCount w) (page_url p) (Some p))))
               = Some (page_url p,
                       navigate (pageNavigator d) (navCount w) (page_url p) (Some p))).
  { simpl. rewrite (logs_lastNavigation _ (navigationErrorLogs_logs _ _ _)). reflexivity. }
  split; [|exact Hl].
  unfold afterNavigations. rewrite Hl. reflexivity.
Qed.

(** The reload in [reloadError] hands a 404 to the callback and still
    returns a response that is ok. *)
Lemma reloadPageFunc_answer_witness :
  exists w' evs,
    reloadPageFunc Doubles.serializeError Scenarios.reloadError
      (Doubles.opened Scenarios.reloadError Scenarios.url)
    = (Ok (mkReload true (Some Doubles.notFound)), w', evs)
    /\ requestUrl (session w') = Some Scenarios.url.
Proof.
  destruct (reloadPageFunc_answer Doubles.serializeError Scenarios.reloadError
              (Doubles.opened Scenarios.reloadError Scenarios.url)
              (mkPage Scenarios.url "title" false) eq_refl)
    as (w' & evs & Hrun & Hreq & _).
  exists w', evs. split; [exact Hrun|exact Hreq].
Defined.

(** ** The gate, read backwards *)



(** ** Every way a scan can end *)

Lemma lastNavigation_count (evs : list Event) :
  lastNavigation evs = None <-> countNavigations evs = 0.
Proof.
  induction evs as [|e evs IH]; simpl; [tauto|].
  destruct (lastNavigation evs) as [n|].
  - destruct e; simpl; split; try discriminate;
      intro H; try (apply IH in H; discriminate H).
  - destruct e; simpl; try exact IH. split; discriminate.
Qed.

Lemma afterNavigations_scan (evs1 logs : list Event) (w : World) :
  Forall isLog logs ->
  afterNavigations (EvPrivacyScan :: evs1 ++ logs) w = afterNavigations evs1 w.
Proof.
  intro H. unfold afterNavigations.
  rewrite (lastNavigation_scan _ _ H). simpl countNavigations.
  rewrite countNavigations_app, (logs_countNavigations _ H), Nat.add_0_r. reflexivity.
Qed.

Lemma engineErrorLog_logs (ser : JsValue -> string) (d : Deps) (msg : string)
    (e : JsValue) (url : string) :
  Forall isLog (engineErrorLog ser d msg e url).
Proof.
  unfold engineErrorLog. destruct (logger d); repeat constructor.
Qed.

Lemma redirectWarning_logs (d : Deps) (observed : string) :
  Forall isLog (redirectWarning d observed).
Proof.
  unfold redirectWarning. destruct (logger d); repeat constructor.
Qed.

Section Cases.

Variable serializeError : JsValue -> string.
Variable d : Deps.

Lemma logs_reloadEvents (l : list Event) :
  Forall isLog l -> Forall (reloadEvent d) l.
Proof.
  induction 1 as [|e l He _ IH]; constructor; [|exact IH].
  destruct e; simpl in *; tauto.
Qed.

(** All the privacy engine leaves behind are its reloads: navigations the
    navigator answered, and their log entries. *)
Lemma runPrivacyEngine_events (eng : PrivacyEngine) :
  forall (w : World) (p : PageHandle),
    page (session w) = Some p ->
    forall r w' evs,
      runPrivacyEngine serializeError d eng w = (r, w', evs) ->
      Forall (reloadEvent d) evs.
Proof.
  induction eng as [pr|e|k IH]; intros w p Hp r w' evs Hrun.
  - inversion Hrun; subst. constructor.
  - inversion Hrun; subst. constructor.
  - simpl in Hrun. unfold bind in Hrun.
    pose proof (reloadPageFunc_run serializeError d w p Hp) as Hr. cbv zeta in Hr.
    rewrite Hr in Hrun. clear Hr.
    set (o := navigate (pageNavigator d) (navCount w) (page_url p) (Some p)) in *.
    set (evs1 := EvNavigate (page_url p) o
                 :: navigationErrorLogs serializeError d (nav_errors o)) in *.
    destruct (afterNavigations_page evs1 w p Hp) as (p1 & Hp1 & _).
    destruct (runPrivacyEngine serializeError d
                (k (mkReload match nav_response o with
                             | Some r0 => ok r0
                             | None => false
                             end (lastRecorded (nav_errors o) None)))
                (afterNavigations evs1 w)) as [[r2 w2] evs2] eqn:Hrun2.
    inversion Hrun; subst.
    change (Forall (reloadEvent d) (evs1 ++ evs2)).
    apply Forall_app. split.
    + subst evs1. constructor.
      * simpl. exists (navCount w), (Some p). reflexivity.
      * apply logs_reloadEvents, navigationErrorLogs_logs.
    + exact (IH _ _ _ Hp1 _ _ _ Hrun2).
Qed.

(** The six ways a privacy scan ends. *)
Lemma scanForPrivacy_cases (w w' : World) (o : Outcome (Gated PrivacyScanResult.t))
    (evs : list Event) :
  scanForPrivacy serializeError d w = (o, w', evs) ->
  (exists e,
      lastBrowserError (session w) = Some e
      /\ o = Ok (NavigationFailed e (statusCode e)) /\ w' = w /\ evs = [])
  \/ (lastBrowserError (session w) = None /\ isOpen (session w) = false
      /\ o = Throw notReadyError /\ w' = w /\ evs = [])
  \/ (isOpen (session w) = true
      /\ exists evs1 logs,
           w' = afterNavigations evs1 w
           /\ evs = EvPrivacyScan :: evs1 ++ logs
           /\ Forall (reloadEvent d) evs1
           /\ Forall isLog logs
           /\ ((exists e p1,
                   page (session w') = Some p1
                   /\ o = Ok (ActionResult
                                (privacyEngineFailure serializeError e (page_url p1))))
               \/ (o = Throw (typeError "request")
                   /\ lastNavigationResponse (session w') = None)
               \/ (o = Throw (typeError "logError") /\ logger d = None)
               \/ (exists r rep,
                      o = Ok (ActionResult r)
                      /\ PrivacyScanResult.results r = Some rep))).
Proof.
  intro Hscan. unfold scanForPrivacy in Hscan.
  destruct (lastBrowserError (session w)) as [e|] eqn:Herr.
  { rewrite (gate_error _ _ _ Herr) in Hscan. inversion Hscan; subst.
    left. exists e. repeat split; reflexivity. }
  destruct (isOpen (session w)) eqn:Hopen.
  2: { rewrite (gate_not_ready _ _ Herr Hopen) in Hscan. inversion Hscan; subst.
       right; left. repeat split; reflexivity. }
  right; right. split; [reflexivity|].
  rewrite (gate_open _ _ Hopen) in Hscan.
  destruct (isOpen_true _ Hopen) as (_ & _ & (p0 & Hp0) & (resp0 & H0)).
  destruct (runPrivacyEngine_run serializeError d
              (scanPageForPrivacy (privacyPageScanner d) (page (session w))) w p0 Hp0)
    as (ro & evs1 & Hrun & _).
  destruct (afterNavigations_page evs1 w p0 Hp0) as (p1 & Hp1 & _).
  pose proof (runPrivacyEngine_events _ _ _ Hp0 _ _ _ Hrun) as Hevs1.
  exists evs1.
  destruct ro as [pr|e].
  2: { rewrite (scanPageForCookies_engine_throws _ _ _ _ _ _ _ _ H0 Hrun Hp1) in Hscan.
       inversion Hscan; subst.
       eexists. split; [reflexivity|]. split; [reflexivity|].
       split; [exact Hevs1|]. split; [apply engineErrorLog_logs|].
       left. exists e, p1. split; [exact Hp1|reflexivity]. }
  destruct (lastNavigationResponse (session (afterNavigations evs1 w)))
    as [resp1|] eqn:H1.
  2: { rewrite (scanPageForCookies_no_response _ _ _ _ _ _ _ H0 Hrun H1) in Hscan.
       inversion Hscan; subst.
       exists []. rewrite app_nil_r. split; [reflexivity|]. split; [reflexivity|].
       split; [exact Hevs1|]. split; [constructor|]. right; left. split; [reflexivity|exact H1]. }
  assert (Hlog : (consentErrors pr = [] \/ logger d <> None)
                 \/ (consentErrors pr <> [] /\ logger d = None)).
  { destruct (consentErrors pr); [left; left; reflexivity|].
    destruct (logger d); [left; right; discriminate|right; split; [discriminate|reflexivity]]. }
  destruct Hlog as [Hlog|[He Hlog]].
  2: { rewrite (scanPageForCookies_logger_fault _ _ _ _ _ _ _ _ _ H0 Hrun H1 Hp1 He Hlog)
         in Hscan. inversion Hscan; subst.
       exists []. rewrite app_nil_r. split; [reflexivity|]. split; [reflexivity|].
       split; [exact Hevs1|]. split; [constructor|]. right; right; left. split; [reflexivity|exact Hlog]. }
  rewrite (scanPageForCookies_returns _ _ _ _ _ _ _ _ _ H0 Hrun H1 Hp1 Hlog) in Hscan.
  inversion Hscan; subst.
  eexists. split; [reflexivity|]. split; [reflexivity|].
  split; [exact Hevs1|]. split; [apply privacyLogs_logs|].
  right; right; right. eexists; eexists. split; reflexivity.
Qed.

(** The five ways an accessibility scan ends. *)
Lemma scanForA11yIssues_cases (c : option string) (w w' : World)
    (o : Outcome (Gated AxeScanResults.t)) (evs : list Event) :
  scanForA11yIssues serializeError d c w = (o, w', evs) ->
  w' = w
  /\ ((exists e,
          lastBrowserError (session w) = Some e
          /\ o = Ok (NavigationFailed e (statusCode e)) /\ evs = [])
      \/ (lastBrowserError (session w) = None /\ isOpen (session w) = false
          /\ o = Throw notReadyError /\ evs = [])
      \/ (isOpen (session w) = true
          /\ exists logs,
               evs = EvAxeAnalyze c :: logs
               /\ Forall isLog logs
               /\ ((exists e p,
                       page (session w) = Some p
                       /\ o = Ok (ActionResult
                                    (axeEngineFailure serializeError e (page_url p))))
                   \/ (o = Throw (typeError "version") /\ browser (session w) = None)
                   \/ (exists r ar,
                          o = Ok (ActionResult r)
                          /\ AxeScanResults.results r = Some ar)))).
Proof.
  intro Hscan. unfold scanForA11yIssues in Hscan.
  destruct (lastBrowserError (session w)) as [e|] eqn:Herr.
  { rewrite (gate_error _ _ _ Herr) in Hscan. inversion Hscan; subst.
    split; [reflexivity|]. left. exists e. repeat split; reflexivity. }
  destruct (isOpen (session w)) eqn:Hopen.
  2: { rewrite (gate_not_ready _ _ Herr Hopen) in Hscan. inversion Hscan; subst.
       split; [reflexivity|]. right; left. repeat split; reflexivity. }
  rewrite (gate_open _ _ Hopen) in Hscan.
  destruct (isOpen_true _ Hopen) as (_ & _ & (p & Hp) & (resp & Hr)).
  destruct (axeEngine d w c) as [ar|e] eqn:Ha.
  2: { rewrite (scanPageForIssues_engine_throws _ _ _ _ _ _ Hp Ha) in Hscan.
       inversion Hscan; subst. split; [reflexivity|]. right; right.
       split; [reflexivity|]. eexists. split; [reflexivity|].
       split; [apply engineErrorLog_logs|]. left. exists e, p. split; [exact Hp|reflexivity]. }
  destruct (browser (session w)) as [b|] eqn:Hb.
  2: { rewrite (scanPageForIssues_no_browser _ _ _ _ _ _ Hp Hb Ha) in Hscan.
       inversion Hscan; subst. split; [reflexivity|]. right; right.
       split; [reflexivity|]. exists []. split; [reflexivity|].
       split; [constructor|]. right; left. split; reflexivity. }
  rewrite (scanPageForIssues_returns _ _ _ _ _ _ _ _ Hp Hb Hr Ha) in Hscan.
  inversion Hscan; subst. split; [reflexivity|]. right; right.
  split; [reflexivity|]. eexists. split; [reflexivity|]. split.
  - destruct (diverges _ _ _); [apply redirectWarning_logs|constructor].
  - right; right. eexists; eexists. split; reflexivity.
Qed.

End Cases.

Lemma logs_countEngineRuns (l : list Event) :
  Forall isLog l -> countEngineRuns l = 0.
Proof.
  induction 1 as [|e l He _ IH]; simpl; [reflexivity|].
  destruct e; simpl in He; tauto.
Qed.

Lemma reloadEvents_countEngineRuns (d : Deps) (l : list Event) :
  Forall (reloadEvent d) l -> countEngineRuns l = 0.
Proof.
  induction 1 as [|e l He _ IH]; simpl; [reflexivity|].
  destruct e; simpl in He; tauto.
Qed.

Lemma countEngineRuns_app (e1 e2 : list Event) :
  countEngineRuns (e1 ++ e2) = countEngineRuns e1 + countEngineRuns e2.
Proof.
  induction e1 as [|e e1 IH]; simpl; [reflexivity|].
  destruct e; simpl; rewrite IH; reflexivity.
Qed.

Lemma recorded_error_not_open (s : Session) (e : BrowserError) :
  lastBrowserError s = Some e -> isOpen s = false.
Proof.
  intro H. unfold isOpen. rewrite H. simpl. rewrite andb_false_r. reflexivity.
Qed.


(** ** What a scan leaves untouched *)

(** An accessibility scan, however it ends, leaves the page object and the
    browser exactly as they were and navigates nowhere; it runs the engine
    once if the session is open and not at all otherwise. *)
Theorem accessibility_scan_changes_nothing
    (ser : JsValue -> string) (d : Deps) (c : option string) (w w' : World)
    (o : Outcome (Gated AxeScanResults.t)) (evs : list Event) :
  scanForA11yIssues ser d c w = (o, w', evs) ->
  w' = w
  /\ countNavigations evs = 0
  /\ countEngineRuns evs = if isOpen (session w) then 1 else 0.
Proof.
  intro H. destruct (scanForA11yIssues_cases ser d c w w' o evs H) as (Hw & Hcases).
  split; [exact Hw|].
  destruct Hcases as [(e & Herr & _ & Hevs)
                     |[(_ & Hopen & _ & Hevs)
                      |(Hopen & logs & Hevs & Hlogs & _)]]; subst evs.
  - rewrite (recorded_error_not_open _ _ Herr). split; reflexivity.
  - rewrite Hopen. split; reflexivity.
  - rewrite Hopen. simpl.
    rewrite (logs_countNavigations _ Hlogs), (logs_countEngineRuns _ Hlogs).
    split; reflexivity.
Qed.

Lemma accessibility_scan_changes_nothing_witness :
  exists o evs,
    scanForA11yIssues Doubles.serializeError (Scenarios.throwing (Some globalLogger)) None
      (Doubles.opened (Scenarios.throwing (Some globalLogger)) Scenarios.url)
    = (o, Doubles.opened (Scenarios.throwing (Some globalLogger)) Scenarios.url, evs)
    /\ countEngineRuns evs = 1.
Proof.
  destruct (scanForA11yIssues Doubles.serializeError (Scenarios.throwing (Some globalLogger))
              None (Doubles.opened (Scenarios.throwing (Some globalLogger)) Scenarios.url))
    as [[o w'] evs] eqn:Hscan.
  destruct (accessibility_scan_changes_nothing _ _ _ _ _ _ _ Hscan) as (Hw & _ & Hruns).
  exists o, evs. subst w'. split; [reflexivity|exact Hruns].
Defined.

(** A privacy scan, however it ends, changes the page object only through
    the reloads its engine asked for: the [browser] field and the driver's
    browser stay, the page stays and is as open or closed as before, and
    with no reload nothing changes at all.  Each reload is one navigation;
    the engine runs once if the session is open and not at all otherwise. *)
Theorem privacy_scan_frame
    (ser : JsValue -> string) (d : Deps) (w w' : World)
    (o : Outcome (Gated PrivacyScanResult.t)) (evs : list Event) :
  scanForPrivacy ser d w = (o, w', evs) ->
  browser (session w') = browser (session w)
  /\ driverBrowser w' = driverBrowser w
  /\ option_map page_isClosed (page (session w'))
     = option_map page_isClosed (page (session w))
  /\ navCount w' = countNavigations evs + navCount w
  /\ (countNavigations evs = 0 -> w' = w)
  /\ countEngineRuns evs = if isOpen (session w) then 1 else 0.
Proof.
  intro H.
  assert (Hframe : w' = afterNavigations evs w
                   /\ countEngineRuns evs = if isOpen (session w) then 1 else 0).
  { destruct (scanForPrivacy_cases ser d w w' o evs H)
      as [(e & Herr & _ & Hw & Hevs)
         |[(_ & Hopen & _ & Hw & Hevs)
          |(Hopen & evs1 & logs & Hw & Hevs & Hre & Hlogs & _)]]; subst.
    - rewrite afterNavigations_nil, (recorded_error_not_open _ _ Herr).
      split; reflexivity.
    - rewrite afterNavigations_nil, Hopen. split; reflexivity.
    - rewrite (afterNavigations_scan _ _ _ Hlogs), Hopen. split; [reflexivity|].
      simpl. rewrite countEngineRuns_app, (reloadEvents_countEngineRuns _ _ Hre),
        (logs_countEngineRuns _ Hlogs). reflexivity. }
  destruct Hframe as (Hw & Hruns). subst w'.
  unfold afterNavigations. simpl.
  split; [destruct (lastNavigation evs) as [[u n]|]; reflexivity|].
  split; [reflexivity|]. split.
  { destruct (lastNavigation evs) as [[u n]|]; [|reflexivity].
    simpl. destruct (page (session w)); reflexivity. }
  split; [reflexivity|]. split; [|exact Hruns].
  intro H0. rewrite H0. apply lastNavigation_count in H0. rewrite H0.
  destruct w; reflexivity.
Qed.

(** One reload: one navigation more, the same browser, the page still open. *)
Lemma privacy_scan_frame_witness :
  exists o w' evs,
    scanForPrivacy Doubles.serializeError Scenarios.reloadError
      (Doubles.opened Scenarios.reloadError Scenarios.url)
    = (o, w', evs)
    /\ navCount w' = 2
    /\ browser (session w') = Some Doubles.chrome
    /\ option_map page_isClosed (page (session w')) = Some false.
Proof.
  eassert (Hscan : scanForPrivacy Doubles.serializeError Scenarios.reloadError
                     (Doubles.opened Scenarios.reloadError Scenarios.url)
                   = (_, _, _)) by (vm_compute; reflexivity).
  destruct (privacy_scan_frame _ _ _ _ _ _ Hscan) as (Hb & _ & Hp & Hn & _).
  do 3 eexists. split; [exact Hscan|].
  split; [exact Hn|]. split; [exact Hb|exact Hp].
Defined.

(** ** The faults a scan can raise *)





(** When the engine returns normally but its last reload's navigation
    returned no response, the privacy scan does not return a result: it
    throws a TypeError, after the engine has run and the reloads have been
    made. *)
Theorem privacy_scan_throws_after_lost_reload
    (ser : JsValue -> string) (d : Deps) (w w1 : World) (pr : PrivacyResults)
    (evs1 : list Event) (url : string) (o : NavOutcome) :
  isOpen (session w) = true ->
  runPrivacyEngine ser d
    (scanPageForPrivacy (privacyPageScanner d) (page (session w))) w = (Ok pr, w1, evs1) ->
  lastNavigation evs1 = Some (url, o) ->
  nav_response o = None ->
  scanForPrivacy ser d w = (Throw (typeError "request"), w1, EvPrivacyScan :: evs1).
Proof.
  intros Hopen Hrun Hlast Hnone.
  destruct (isOpen_true _ Hopen) as (_ & _ & (p & Hp) & (resp & Hr)).
  destruct (runPrivacyEngine_run ser d
              (scanPageForPrivacy (privacyPageScanner d) (page (session w))) w p Hp)
    as (ro & evs & Hrun' & _).
  rewrite Hrun in Hrun'. inversion Hrun'; subst.
  assert (H1 : lastNavigationResponse (session (afterNavigations evs w)) = None).
  { unfold afterNavigations. rewrite Hlast. exact Hnone. }
  unfold scanForPrivacy. rewrite (gate_open _ _ Hopen).
  rewrite (scanPageForCookies_no_response ser d _ _ _ _ _ Hr Hrun H1). reflexivity.
Qed.

Lemma privacy_scan_throws_after_lost_reload_witness :
  exists w1 evs,
    scanForPrivacy Doubles.serializeError MoreScenarios.reloadLost
      (Doubles.opened MoreScenarios.reloadLost Scenarios.url)
    = (Throw (typeError "request"), w1, evs)
    /\ lastBrowserError (session w1) = Some Doubles.notFound.
Proof.
  eassert (Hrun : runPrivacyEngine Doubles.serializeError MoreScenarios.reloadLost
                    (Scenarios.reloadOnce (Scenarios.found []))
                    (Doubles.opened MoreScenarios.reloadLost Scenarios.url)
                  = (Ok _, _, _)) by (vm_compute; reflexivity).
  do 2 eexists. split.
  - apply (privacy_scan_throws_after_lost_reload Doubles.serializeError
             MoreScenarios.reloadLost
             (Doubles.opened MoreScenarios.reloadLost Scenarios.url)
             _ _ _ Scenarios.url MoreScenarios.lost eq_refl Hrun eq_refl eq_refl).
  - reflexivity.
Defined.

(** ** Scans that get through *)

(** On an open session whose [browser] field is set, an accessibility scan
    whose engine returns does return a result: the engine's output, the
    page's title, the browser's version, the status of the last navigation
    response, the configured user agent and resolution, and no error. *)
Theorem accessibility_scan_result
    (ser : JsValue -> string) (d : Deps) (c : option string) (w : World)
    (b : Browser) (ar : AxeResults) :
  isOpen (session w) = true ->
  browser (session w) = Some b ->
  analyze (createAxePuppeteer (axePuppeteerFactory d) (page (session w)) c)
  = AxeReturned ar ->
  exists p resp r evs,
    page (session w) = Some p
    /\ lastNavigationResponse (session w) = Some resp
    /\ scanForA11yIssues ser d c w = (Ok (ActionResult r), w, evs)
    /\ AxeScanResults.results r = Some ar
    /\ AxeScanResults.pageTitle r = Some (page_title p)
    /\ AxeScanResults.browserSpec r = Some (browser_version b)
    /\ AxeScanResults.pageResponseCode r = Some (status resp)
    /\ AxeScanResults.userAgent r
       = Some (getUserAgent (pageConfigurator (pageNavigator d)))
    /\ AxeScanResults.browserResolution r
       = Some (getBrowserResolution (pageConfigurator (pageNavigator d)))
    /\ AxeScanResults.error r = None.
Proof.
  intros Hopen Hb Ha.
  destruct (isOpen_true _ Hopen) as (_ & _ & (p & Hp) & (resp & Hr)).
  exists p, resp. eexists; eexists.
  split; [exact Hp|]. split; [exact Hr|]. split.
  - unfold scanForA11yIssues. rewrite (gate_open _ _ Hopen).
    rewrite (scanPageForIssues_returns ser d c w p b resp ar Hp Hb Hr Ha). reflexivity.
  - repeat split; reflexivity.
Qed.

Lemma accessibility_scan_result_witness :
  exists r evs,
    scanForA11yIssues Doubles.serializeError (Scenarios.plain None) None
      (Doubles.opened (Scenarios.plain None) Scenarios.url)
    = (Ok (ActionResult r), Doubles.opened (Scenarios.plain None) Scenarios.url, evs)
    /\ AxeScanResults.pageTitle r = Some "title"
    /\ AxeScanResults.browserSpec r = Some "Chrome/100"
    /\ AxeScanResults.pageResponseCode r = Some 200%Z.
Proof.
  destruct (accessibility_scan_result Doubles.serializeError (Scenarios.plain None) None
              (Doubles.opened (Scenarios.plain None) Scenarios.url)
              Doubles.chrome (mkAxeResults Scenarios.url []) eq_refl eq_refl eq_refl)
    as (p & resp & r & evs & Hp & Hr & Hscan & _ & Ht & Hb & Hc & _).
  inversion Hp; subst p. inversion Hr; subst resp.
  exists r, evs. split; [exact Hscan|]. split; [exact Ht|]. split; [exact Hb|exact Hc].
Defined.



(** ** The warning that goes with [scannedUrl] *)

(** Whenever a result with a [results] field carries a [scannedUrl], a
    warning naming that URL was logged during the scan, if there is a logger. *)
Theorem scannedUrl_comes_with_warning
    (ser : JsValue -> string) (d : Deps) (w w' : World) (evs : list Event)
    (lg : GlobalLogger) (u : string) :
  logger d = Some lg ->
  (forall c r ar,
      scanForA11yIssues ser d c w = (Ok (ActionResult r), w', evs) ->
      AxeScanResults.results r = Some ar ->
      AxeScanResults.scannedUrl r = Some u ->
      In (redirectWarningEntry u) evs)
  /\ (forall r rep,
        scanForPrivacy ser d w = (Ok (ActionResult r), w', evs) ->
        PrivacyScanResult.results r = Some rep ->
        PrivacyScanResult.scannedUrl r = Some u ->
        In (redirectWarningEntry u) evs).
Proof.
  intro Hlg. split.
  - intros c r ar Hscan Hres Hurl.
    destruct (scanForA11yIssues_success_inv ser d c w w' r ar evs Hscan Hres)
      as (p & b & resp & _ & _ & _ & _ & _ & _ & Hr & Hevs).
    rewrite Hr in Hurl. simpl in Hurl. rewrite Hevs.
    destruct (diverges resp (requestUrl (session w)) (axe_url ar)); [|discriminate].
    inversion Hurl; subst u. right. unfold redirectWarning. rewrite Hlg. left. reflexivity.
  - intros r rep Hscan Hres Hurl.
    destruct (scanForPrivacy_success_inv ser d w w' r rep evs Hscan Hres)
      as (resp0 & p0 & resp1 & p1 & evs1 & _ & _ & _ & _ & _ & _ & _ & _ & _ & _
          & Hr & Hevs).
    rewrite Hr in Hurl. simpl in Hurl. rewrite Hevs.
    right. apply in_or_app. right. unfold privacyLogs. apply in_or_app. left.
    destruct (diverges resp1 (requestUrl (session w')) (page_url p1)); [|discriminate].
    inversion Hurl; subst u. unfold redirectWarning. rewrite Hlg. left. reflexivity.
Qed.

(** One redirect on the way: [scannedUrl] is set and the warning is logged. *)
Lemma scannedUrl_comes_with_warning_witness :
  exists r w' evs,
    scanForA11yIssues Doubles.serializeError
      (MoreScenarios.viaRedirect (Some globalLogger)) None
      (Doubles.opened (MoreScenarios.viaRedirect (Some globalLogger)) Scenarios.url)
    = (Ok (ActionResult r), w', evs)
    /\ AxeScanResults.scannedUrl r = Some Scenarios.url
    /\ In (redirectWarningEntry Scenarios.url) evs.
Proof.
  eassert (Hscan : scanForA11yIssues Doubles.serializeError
                     (MoreScenarios.viaRedirect (Some globalLogger)) None
                     (Doubles.opened (MoreScenarios.viaRedirect (Some globalLogger))
                        Scenarios.url)
                   = (Ok (ActionResult _), _, _)) by (vm_compute; reflexivity).
  do 3 eexists. split; [exact Hscan|]. split; [reflexivity|].
  exact (proj1 (scannedUrl_comes_with_warning Doubles.serializeError
                  (MoreScenarios.viaRedirect (Some globalLogger)) _ _ _
                  globalLogger Scenarios.url eq_refl) _ _ _ Hscan eq_refl eq_refl).
Defined.

(** ** Requested URLs that [encodeURI] rewrites *)

Lemma encodeURI_length (u : string) : String.length u <= String.length (encodeURI u).
Proof.
  induction u as [|c u IH]; simpl; [lia|].
  destruct (uriUnescaped c); simpl; lia.
Qed.

Lemma encodeURI_fixed (u : string) :
  encodeURI u = u <-> forallb uriUnescaped (list_ascii_of_string u) = true.
Proof.
  induction u as [|c u IH]; simpl; [tauto|].
  destruct (uriUnescaped c) eqn:Hc; simpl.
  - rewrite <- IH. split; intro H; [inversion H; congruence|rewrite H; reflexivity].
  - split; [|discriminate]. intro H. exfalso. inversion H as [[Hp Hrest]].
    pose proof (encodeURI_length u) as Hlen.
    rewrite <- Hrest in Hlen at 1. simpl in Hlen. lia.
Qed.

(** With no redirect and a page that shows exactly the requested URL, a
    privacy scan's result is free of [scannedUrl] only if every character of
    that URL is one [encodeURI] leaves alone.  A requested URL with a space,
    a percent sign or a non-ASCII character is reported as redirected even
    though the page shows it verbatim. *)
Theorem verbatim_url_flagged_unless_unescaped
    (ser : JsValue -> string) (d : Deps) (w w' : World) (evs : list Event)
    (r : PrivacyScanResult.t) (rep : PrivacyPageScanReport)
    (resp : HTTPResponse) (p : PageHandle) :
  scanForPrivacy ser d w = (Ok (ActionResult r), w', evs) ->
  PrivacyScanResult.results r = Some rep ->
  lastNavigationResponse (session w') = Some resp ->
  redirectChain resp = [] ->
  page (session w') = Some p ->
  requestUrl (session w') = Some (page_url p) ->
  (PrivacyScanResult.scannedUrl r = None
   <-> forallb uriUnescaped (list_ascii_of_string (page_url p)) = true).
Proof.
  intros Hscan Hres Hresp Hchain Hp Hreq.
  destruct (scanForPrivacy_success_inv ser d w w' r rep evs Hscan Hres)
    as (resp0 & p0 & resp1 & p1 & evs1 & _ & _ & _ & _ & _ & _ & H1 & Hp1 & _ & _
        & Hr & _).
  rewrite Hresp in H1. inversion H1; subst resp1.
  rewrite Hp in Hp1. inversion Hp1; subst p1.
  rewrite Hr. simpl. unfold diverges. rewrite Hchain, Hreq. simpl.
  rewrite <- encodeURI_fixed.
  destruct (encodeURI (page_url p) =? page_url p)%string eqn:He; simpl.
  - apply String.eqb_eq in He. split; [intros _; exact He|reflexivity].
  - apply String.eqb_neq in He. split; [discriminate|contradiction].
Qed.

(** The requested URL has a space in it. *)
Lemma verbatim_url_flagged_unless_unescaped_witness :
  exists r w' evs,
    scanForPrivacy Doubles.serializeError MoreScenarios.verbatim
      (Doubles.opened MoreScenarios.verbatim MoreScenarios.spaced)
    = (Ok (ActionResult r), w', evs)
    /\ requestUrl (session w') = Some MoreScenarios.spaced
    /\ option_map page_url (page (session w')) = Some MoreScenarios.spaced
    /\ PrivacyScanResult.scannedUrl r <> None.
Proof.
  eassert (Hscan : scanForPrivacy Doubles.serializeError MoreScenarios.verbatim
                     (Doubles.opened MoreScenarios.verbatim MoreScenarios.spaced)
                   = (Ok (ActionResult _), _, _)) by (vm_compute; reflexivity).
  do 3 eexists. split; [exact Hscan|]. split; [reflexivity|]. split; [reflexivity|].
  intro Hnone.
  apply (verbatim_url_flagged_unless_unescaped _ _ _ _ _ _ _ (Doubles.okResponse 200)
           (mkPage MoreScenarios.spaced "title" false)
           Hscan eq_refl eq_refl eq_refl eq_refl eq_refl) in Hnone.
  discriminate Hnone.
Defined.

(** ** Creating the session *)

(** With a driver, [create] connects when the options name an endpoint,
    whatever else they say, and launches otherwise.  If the driver fails, the
    fault goes to the caller and nothing has changed.  If it answers, the
    [browser] field holds its answer and [page] a new, open page, while
    [requestUrl], [lastNavigationResponse] and [lastBrowserError] keep what
    an earlier navigation left in them. *)
Theorem create_outcome
    (d : Deps) (wd : WebDriver) (options : option BrowserStartOptions) (w : World) :
  webDriver d = Some wd ->
  create d options w =
  match startOf wd options with
  | Launched b =>
      (Ok tt,
       mkWorld
         (mkSession (requestUrl (session w))
            (Some (mkPage "about:blank" EmptyString false))
            (Some b)
            (lastNavigationResponse (session w))
            (lastBrowserError (session w)))
         (Some b) (navCount w),
       [EvBrowserLaunched b])
  | LaunchFailed e => (Throw e, w, [])
  end.
Proof.
  intro Hwd. unfold create, startOf, bind, deref, webDriver_start, update, throw, ret.
  rewrite Hwd.
  destruct options as [[path [endpoint|]]|]; simpl;
    match goal with
    | |- context [match ?l with Launched _ => _ | LaunchFailed _ => _ end] => destruct l
    end; reflexivity.
Qed.

(** An endpoint and an executable path together: the driver connects. *)
Lemma create_outcome_witness :
  exists w' evs,
    create MoreScenarios.twoWaysDeps (Some MoreScenarios.withExecutable) newWorld
    = (Ok tt, w', evs)
    /\ browser (session w') = Some (mkBrowser "remote").
Proof.
  do 2 eexists. split.
  - apply (create_outcome MoreScenarios.twoWaysDeps MoreScenarios.twoWays
             (Some MoreScenarios.withExecutable) newWorld eq_refl).
  - reflexivity.
Defined.

(** [create] looks at the page and the browser only.  After it the session
    is open as soon as a navigation response and no browser error are left
    over from before, and if none is, both scans raise the not-ready error. *)
Theorem create_keeps_navigation_state
    (ser : JsValue -> string) (d : Deps) (options : option BrowserStartOptions)
    (w w' : World) (evs : list Event) :
  create d options w = (Ok tt, w', evs) ->
  isOpen (session w')
  = isNil (lastBrowserError (session w))
    && negb (isNil (lastNavigationResponse (session w)))
  /\ (lastNavigationResponse (session w) = None ->
      lastBrowserError (session w) = None ->
      (forall c, scanForA11yIssues ser d c w' = (Throw notReadyError, w', []))
      /\ scanForPrivacy ser d w' = (Throw notReadyError, w', [])).
Proof.
  intro H.
  assert (Hs : page (session w') = Some (mkPage "about:blank" EmptyString false)
               /\ lastNavigationResponse (session w') = lastNavigationResponse (session w)
               /\ lastBrowserError (session w') = lastBrowserError (session w)).
  { destruct (webDriver d) as [wd|] eqn:Hwd.
    - rewrite (create_outcome d wd options w Hwd) in H.
      destruct (startOf wd options); inversion H; subst. repeat split; reflexivity.
    - unfold create, bind, deref, throw in H. rewrite Hwd in H.
      destruct options as [[path [endpoint|]]|]; discriminate H. }
  destruct Hs as (Hp & Hr & He).
  assert (Ho : isOpen (session w')
               = isNil (lastBrowserError (session w))
                 && negb (isNil (lastNavigationResponse (session w)))).
  { unfold isOpen. rewrite Hp, Hr, He. reflexivity. }
  split; [exact Ho|].
  intros Hnone Hnoerr.
  assert (Hclosed : isOpen (session w') = false).
  { rewrite Ho, Hnone, Hnoerr. reflexivity. }
  assert (Herr' : lastBrowserError (session w') = None) by congruence.
  split; [intro c|]; apply gate_not_ready; assumption.
Qed.

(** A session that was navigated and closed, then created again: it passes
    for open on the response of the old navigation. *)
Lemma create_keeps_navigation_state_witness :
  isOpen (session (Scenarios.closedAgain (Scenarios.plain None))) = false
  /\ isOpen (session MoreScenarios.recreated) = true.
Proof.
  split; [reflexivity|].
  eassert (Hc : create (Scenarios.plain None) None
                  (Scenarios.closedAgain (Scenarios.plain None))
                = (Ok tt, _, _)) by (vm_compute; reflexivity).
  exact (proj1 (create_keeps_navigation_state Doubles.serializeError _ _ _ _ _ Hc)).
Defined.


(** ** After a reload *)

(** Once the engine has reloaded, [scannedUrl] is decided by the last reload
    alone: by the redirect chain of the response it returned and by whether
    the URL that was reloaded, percent-encoded, is still the one the page
    shows.  The URL the caller navigated to and the redirects of that first
    navigation no longer count. *)
Theorem reload_decides_scannedUrl
    (ser : JsValue -> string) (d : Deps) (w w' : World) (evs : list Event)
    (r : PrivacyScanResult.t) (rep : PrivacyPageScanReport)
    (url : string) (o : NavOutcome) :
  scanForPrivacy ser d w = (Ok (ActionResult r), w', evs) ->
  PrivacyScanResult.results r = Some rep ->
  lastNavigation evs = Some (url, o) ->
  exists resp,
    nav_response o = Some resp
    /\ PrivacyScanResult.scannedUrl r
       = if diverges resp (Some url) (nav_url o) then Some (nav_url o) else None.
Proof.
  intros Hscan Hres Hlast.
  destruct (scanForPrivacy_success_inv ser d w w' r rep evs Hscan Hres)
    as (resp0 & p0 & resp1 & p1 & evs1 & _ & _ & Hp0 & _ & Hw' & _ & H1 & Hp1 & _ & _
        & Hr & Hevs).
  rewrite Hevs, (lastNavigation_scan _ _ (privacyLogs_logs _ _ _ _ _)) in Hlast.
  rewrite Hw' in H1, Hp1. unfold afterNavigations in H1, Hp1.
  rewrite Hlast in H1, Hp1. simpl in H1, Hp1. rewrite Hp0 in Hp1.
  inversion Hp1; subst p1.
  exists resp1. split; [exact H1|].
  rewrite Hr, Hw'. unfold afterNavigations. rewrite Hlast. reflexivity.
Qed.

(** The first navigation is redirected to [/landing]; the engine reloads
    that page, and the result no longer says that anything was redirected. *)
Lemma reload_decides_scannedUrl_witness :
  diverges (Doubles.okResponse 200) (Some Scenarios.url) Scenarios.landing = true
  /\ exists r rep w' evs,
       scanForPrivacy Doubles.serializeError Scenarios.redirectedThenReload
         (Doubles.opened Scenarios.redirectedThenReload Scenarios.url)
       = (Ok (ActionResult r), w', evs)
       /\ PrivacyScanResult.results r = Some rep
       /\ PrivacyScanResult.scannedUrl r = None.
Proof.
  split; [reflexivity|].
  eassert (Hscan : scanForPrivacy Doubles.serializeError Scenarios.redirectedThenReload
                     (Doubles.opened Scenarios.redirectedThenReload Scenarios.url)
                   = (Ok (ActionResult _), _, _)) by (vm_compute; reflexivity).
  destruct (reload_decides_scannedUrl _ _ _ _ _ _ _ Scenarios.landing
              (Doubles.arrives 200 Scenarios.landing) Hscan eq_refl eq_refl)
    as (resp & Hresp & Hurl).
  do 4 eexists. split; [exact Hscan|]. split; [reflexivity|].
  inversion Hresp; subst resp. exact Hurl.
Defined.

(** ** Closing and the recorded error *)

(** [close()] does not clear a recorded browser error: a scan after it
    still returns the failure carrying that error, not the not-ready fault. *)
Theorem close_keeps_recorded_error
    (ser : JsValue -> string) (d : Deps) (w w1 : World) (e : BrowserError)
    (r : Outcome unit) (evs : list Event) :
  lastBrowserError (session w) = Some e ->
  close d w = (r, w1, evs) ->
  (forall c,
      scanForA11yIssues ser d c w1 = (Ok (NavigationFailed e (statusCode e)), w1, []))
  /\ scanForPrivacy ser d w1 = (Ok (NavigationFailed e (statusCode e)), w1, []).
Proof.
  intros He Hc.
  assert (He1 : lastBrowserError (session w1) = Some e).
  { unfold close, webDriver_close, ret in Hc.
    destruct (webDriver d); [destruct (driverBrowser w)|];
      inversion Hc; subst; exact He. }
  split; [intro c|]; apply gate_error; exact He1.
Qed.

Lemma close_keeps_recorded_error_witness :
  exists w1 evs,
    close (Scenarios.failing None)
      (Doubles.opened (Scenarios.failing None) Scenarios.url)
    = (Ok tt, w1, evs)
    /\ evs = [EvBrowserReleased Doubles.chrome]
    /\ scanForPrivacy Doubles.serializeError (Scenarios.failing None) w1
       = (Ok (NavigationFailed Doubles.notFound (Some 404%Z)), w1, []).
Proof.
  eassert (Hc : close (Scenarios.failing None)
                  (Doubles.opened (Scenarios.failing None) Scenarios.url)
                = (Ok tt, _, _)) by (vm_compute; reflexivity).
  do 2 eexists. split; [exact Hc|]. split; [reflexivity|].
  exact (proj2 (close_keeps_recorded_error Doubles.serializeError
                  (Scenarios.failing None)
                  (Doubles.opened (Scenarios.failing None) Scenarios.url) _
                  Doubles.notFound _ _ eq_refl Hc)).
Defined.
